(** * readfish: flowcell geometry, channel partition and run-info (ru/utils.py)

    A shallow embedding of the pure core of [ru/utils.py]: [get_coords],
    [get_flowcell_array], [generate_flowcell], [get_targets] and
    [get_run_info].  Python integers are [Z], [//] and [%] are [Z.div] and
    [Z.modulo] (both floor towards minus infinity for a positive divisor),
    exceptions are values of [exn] carried by [result], and the dictionary a
    caller hands to [get_run_info] is an explicit store that the function
    returns next to its result. *)

From Stdlib Require Import ZArith List Bool Lia Permutation Sorted Ascii String QArith.QArith_base.
From stdpp Require Import gmap strings list fin_maps.
Import ListNotations.

Local Open Scope string_scope.
Local Open Scope list_scope.
Local Open Scope Z_scope.

(** ** Exceptions and results *)

(** The exceptions the modelled code can raise.  A [ValueError] carries the
    message the source gives it; the other kinds carry what identifies them. *)
Inductive exn : Type :=
| ValueError (msg : string)
| KeyError (key : string)
| KeyErrorInt (key : Z)
| IndexError
| TypeError
| AttributeError
| ZeroDivisionError.

Inductive result (A : Type) : Type :=
| Ok (a : A)
| Raise (e : exn).
Arguments Ok {A} a.
Arguments Raise {A} e.

Definition bind {A B : Type} (r : result A) (k : A -> result B) : result B :=
  match r with
  | Ok a => k a
  | Raise e => Raise e
  end.

Definition is_Ok {A : Type} (r : result A) : bool :=
  match r with
  | Ok _ => true
  | Raise _ => false
  end.

(** [result] is a monad; stdpp's [x ← r; k] notation sequences statements. *)
#[global] Instance result_ret : MRet result := fun A a => Ok a.
#[global] Instance result_bind : MBind result := fun A B k r => bind r k.

(** [[f(x) for x in xs]] where [f] may raise: the first exception wins. *)
Fixpoint mapM {A B : Type} (f : A -> result B) (xs : list A) : result (list B) :=
  match xs with
  | [] => Ok []
  | x :: xs' => y ← f x; ys ← mapM f xs'; Ok (y :: ys)
  end.

(** A [for] loop threading an accumulator through a body that may raise. *)
Fixpoint foldM {A S : Type} (f : S -> A -> result S) (xs : list A) (s : S) : result S :=
  match xs with
  | [] => Ok s
  | x :: xs' => s' ← f s x; foldM f xs' s'
  end.

(** The messages of the source, verbatim. *)
Definition msg_channel_range : string := "channel cannot be below 0 or above flowcell_size".
Definition msg_size_unrecognised : string := "flowcell_size is not recognised".
Definition msg_split_positive : string := "split must be a positive integer".
Definition msg_split_uneven : string := "The flowcell cannot be split evenly".
Definition msg_max_empty : string := "max() arg is an empty sequence".
Definition msg_negative_dims : string := "negative dimensions are not allowed".
Definition msg_unequal_division : string := "array split does not result in an equal division".
Definition msg_sections : string := "number sections must be larger than 0.".
Definition msg_int_literal : string := "invalid literal for int() with base 10".
Definition msg_field_name : string := "Type names and field names must be valid identifiers".

(** ** Python values

    The objects that occur in a configuration dictionary: what a TOML document
    holds (booleans, integers, strings, arrays, tables; floats and dates play
    no part and are left out), and the two kinds of object [get_run_info]
    stores into it: a set of contig names and the dictionary of
    [get_targets].  A dictionary keeps its insertion order, so a table is an
    association list; its keys are meant to be distinct and a lookup takes
    the first match. *)

(** One end of a target interval: an [int], or [float("inf")]. *)
Inductive bound : Type :=
| Int (z : Z)
| Inf.

(** What [get_targets] returns: strand, then contig, then the tuples
    appended for it, oldest first. *)
Abbreviation target_map := (gmap string (gmap string (list (list bound)))).

#[warnings="-register-all"]
Inductive value : Type :=
| VBool (b : bool)
| VInt (z : Z)
| VStr (s : string)
| VList (items : list value)
| VDict (d : list (string * value))
| VSet (s : gset string)
| VTargets (t : target_map).

Abbreviation dict := (list (string * value)).

(** [d.get(k)]; [None] when the key is absent. *)
Fixpoint dict_get (k : string) (d : dict) : option value :=
  match d with
  | [] => None
  | (k', v) :: d' => if String.eqb k k' then Some v else dict_get k d'
  end.

(** [d[k] = v]: an existing key keeps its place, a new one goes last. *)
Fixpoint dict_set (k : string) (v : value) (d : dict) : dict :=
  match d with
  | [] => [(k, v)]
  | (k', v') :: d' =>
      if String.eqb k k' then (k, v) :: d' else (k', v') :: dict_set k v d'
  end.

Definition dict_keys (d : dict) : list string := map fst d.

(** [isinstance(d.get(k), dict)]. *)
Definition is_dict (o : option value) : bool :=
  match o with
  | Some (VDict _) => true
  | _ => false
  end.

(** Truth value of an object, as [if] tests it. *)
Definition truthy (v : value) : bool :=
  match v with
  | VBool b => b
  | VInt z => negb (z =? 0)
  | VStr s => negb (String.eqb s "")
  | VList items => negb (Nat.eqb (length items) 0)
  | VDict d => negb (Nat.eqb (length d) 0)
  | VSet s => negb (Nat.eqb (size s) 0)
  | VTargets t => negb (Nat.eqb (size t) 0)
  end.

(** ** Python built-ins used by the module *)

(** [range(start, stop, step)] for a positive [step]. *)
Definition py_range (start stop step : Z) : list Z :=
  map (fun i => start + step * Z.of_nat i)
      (seq 0 (Z.to_nat ((stop - start + step - 1) / step))).

(** [max(xs, key=key)]: the first element whose key is largest. *)
Definition py_max {A : Type} (key : A -> Z) (xs : list A) : result A :=
  match xs with
  | [] => Raise (ValueError msg_max_empty)
  | x :: xs' =>
      Ok (fold_left (fun best y => if key best <? key y then y else best) xs' x)
  end.

(** ** numpy arrays of rank two, as lists of rows *)

Abbreviation ndarray := (list (list Z)).

Definition shape (a : ndarray) : Z * Z :=
  (Z.of_nat (length a), Z.of_nat (length (hd [] a))).

(** [np.zeros((rows, cols), dtype=int)]. *)
Definition np_zeros (rows cols : Z) : result ndarray :=
  if (rows <? 0) || (cols <? 0) then Raise (ValueError msg_negative_dims)
  else Ok (repeat (repeat 0 (Z.to_nat cols)) (Z.to_nat rows)).

(** Index normalisation of a sequence of length [n]: a negative index counts
    from the end, anything outside [-n, n) is an [IndexError]. *)
Definition norm_index (n : nat) (i : Z) : result nat :=
  if (0 <=? i) && (i <? Z.of_nat n) then Ok (Z.to_nat i)
  else if (- Z.of_nat n <=? i) && (i <? 0) then Ok (Z.to_nat (i + Z.of_nat n))
  else Raise IndexError.

(** [b[row][col] += chan]. *)
Definition add_at (b : ndarray) (row col chan : Z) : result ndarray :=
  r ← norm_index (length b) row;
  let line := nth r b [] in
  c ← norm_index (length line) col;
  Ok (<[r := <[c := nth c line 0 + chan]> line]> b).

(** [l[start : start + len]]. *)
Definition slice {A : Type} (start len : nat) (l : list A) : list A :=
  firstn len (skipn start l).

(** [np.split(arr, sections, axis)] for an integer number of sections: the
    length along [axis] is read from the shape (a tuple index, so an axis
    outside [-2, 1] is an [IndexError] and one that is not an int a
    [TypeError]), must be divisible by [sections], and the array is cut into
    consecutive blocks of equal length along that axis. *)
Definition np_split (arr : ndarray) (sections : Z) (axis : value) : result (list ndarray) :=
  match axis with
  | VInt ax =>
      by_rows ← (if (ax =? 0) || (ax =? -2) then Ok true
                 else if (ax =? 1) || (ax =? -1) then Ok false
                 else Raise IndexError);
      let n := if by_rows : bool then fst (shape arr) else snd (shape arr) in
      if sections =? 0 then Raise ZeroDivisionError
      else if negb (n mod sections =? 0) then Raise (ValueError msg_unequal_division)
      else if sections <? 0 then Raise (ValueError msg_sections)
      else
        let each := Z.to_nat (n / sections) in
        Ok (map (fun i =>
                   if by_rows : bool then slice (i * each) each arr
                   else map (slice (i * each) each) arr)
                (seq 0 (Z.to_nat sections)))
  | _ => Raise TypeError
  end.

(** ** The flowcell layouts *)

Section Flowcell.

(** [ru.channels] is imported by the module but holds only data: the two
    hardware layout dictionaries, channel number to (column, row).  They are
    taken as given; a key that is absent raises [KeyError]. *)
Variable FLONGLE_CHANNELS : Z -> option (Z * Z).
Variable MINION_CHANNELS : Z -> option (Z * Z).

Definition table_lookup (table : Z -> option (Z * Z)) (channel : Z) : result (Z * Z) :=
  match table channel with
  | Some xy => Ok xy
  | None => Raise (KeyErrorInt channel)
  end.

(** [get_coords(channel, flowcell_size)], returning (column, row). *)
Definition get_coords (channel flowcell_size : Z) : result (Z * Z) :=
  if (channel <=? 0) || (flowcell_size <? channel) then
    Raise (ValueError msg_channel_range)
  else if flowcell_size =? 3000 then
    let block := (channel - 1) / 250 in
    let remainder := (channel - 1) mod 250 in
    let row := remainder / 10 in
    let column := remainder mod 10 + block * 10 in
    Ok (column, row)
  else if flowcell_size =? 126 then table_lookup FLONGLE_CHANNELS channel
  else if flowcell_size =? 512 then table_lookup MINION_CHANNELS channel
  else Raise (ValueError msg_size_unrecognised).

(** The list of (column, row, channel) of [get_flowcell_array]. *)
Definition channel_coords (flowcell_size : Z) : result (list (Z * Z * Z)) :=
  mapM (fun x => '(col, row) ← get_coords x flowcell_size; Ok (col, row, x))
       (py_range 1 (flowcell_size + 1) 1).

Definition place (b : ndarray) (entry : Z * Z * Z) : result ndarray :=
  let '(col, row, chan) := entry in add_at b row col chan.

(** [get_flowcell_array(flowcell_size)]. *)
Definition get_flowcell_array (flowcell_size : Z) : result ndarray :=
  coords ← channel_coords flowcell_size;
  max_row ← py_max (fun e => snd (fst e)) coords;
  max_col ← py_max (fun e => fst (fst e)) coords;
  b ← np_zeros (snd (fst max_row) + 1) (fst (fst max_col) + 1);
  b ← foldM place coords b;
  Ok (rev b).

(** [generate_flowcell(flowcell_size, split, axis, odd_even)].  A
    [ValueError] of [np.split] is caught and raised again with the module's
    own message; any other exception passes through. *)
Definition generate_flowcell (flowcell_size split : Z) (axis : value) (odd_even : bool)
  : result (list (list Z)) :=
  if odd_even then
    Ok [py_range 1 (flowcell_size + 1) 2; py_range 2 (flowcell_size + 1) 2]
  else
    arr ← get_flowcell_array flowcell_size;
    if split <=? 0 then Raise (ValueError msg_split_positive)
    else
      blocks ← match np_split arr split axis with
               | Raise (ValueError _) => Raise (ValueError msg_split_uneven)
               | r => r
               end;
      Ok (map (fun block : ndarray => concat block) blocks).

End Flowcell.

(** ** Strings

    Strings are byte strings; the characters that matter to the module (the
    comma, digits, signs, ASCII white space) are single bytes. *)

(** [s.split(sep)] for a one-character separator: never empty. *)
Fixpoint split_on (sep : ascii) (s : string) : list string :=
  match s with
  | EmptyString => [""]
  | String c s' =>
      if Ascii.eqb c sep then "" :: split_on sep s'
      else match split_on sep s' with
           | [] => [String c ""]
           | w :: ws => String c w :: ws
           end
  end.

(** The characters of a string, each as a string of length one: what a [for]
    loop over a [str] yields. *)
Fixpoint chars (s : string) : list string :=
  match s with
  | EmptyString => []
  | String c s' => String c "" :: chars s'
  end.

(** ASCII white space as [str.strip] and [int] see it. *)
Definition is_space (c : ascii) : bool :=
  let n := nat_of_ascii c in
  ((9 <=? n)%nat && (n <=? 13)%nat) || ((28 <=? n)%nat && (n <=? 32)%nat).

Fixpoint lstrip (s : string) : string :=
  match s with
  | EmptyString => ""
  | String c s' => if is_space c then lstrip s' else s
  end.

Fixpoint rstrip (s : string) : string :=
  match s with
  | EmptyString => ""
  | String c s' =>
      match rstrip s' with
      | EmptyString => if is_space c then "" else String c ""
      | t => String c t
      end
  end.

Definition strip (s : string) : string := rstrip (lstrip s).

Definition digit_of (c : ascii) : option Z :=
  let n := nat_of_ascii c in
  if (48 <=? n)%nat && (n <=? 57)%nat then Some (Z.of_nat n - 48) else None.

(** Decimal digits, single underscores allowed between two digits. *)
Fixpoint parse_digits (acc : Z) (after_digit : bool) (s : string) : option Z :=
  match s with
  | EmptyString => if after_digit then Some acc else None
  | String c s' =>
      match digit_of c with
      | Some d => parse_digits (10 * acc + d) true s'
      | None =>
          if Ascii.eqb c "_" && after_digit then
            match s' with
            | EmptyString => None
            | _ => parse_digits acc false s'
            end
          else None
      end
  end.

(** [int(s)] in base ten: surrounding white space, an optional sign, digits. *)
Definition py_int (s : string) : result Z :=
  let parsed :=
    match strip s with
    | String "+" rest => parse_digits 0 false rest
    | String "-" rest => Z.opp <$> parse_digits 0 false rest
    | rest => parse_digits 0 false rest
    end in
  match parsed with
  | Some z => Ok z
  | None => Raise (ValueError msg_int_literal)
  end.

(** ** Target regions *)

(** [t[strand][ctg].append(tup)] on the nested [defaultdict]. *)
Definition add_target (t : target_map) (strand ctg : string) (tup : list bound) : target_map :=
  let contigs := default ∅ (t !! strand) in
  let intervals := default [] (contigs !! ctg) in
  <[strand := <[ctg := intervals ++ [tup]]> contigs]> t.

(** The body of the loop of [get_targets] for one item. *)
Definition parse_item (t : target_map) (item : value) : result target_map :=
  match item with
  | VStr item =>
      match split_on "," item with
      | [] => Raise (ValueError "not enough values to unpack")
      | ctg :: [] =>
          Ok (fold_left (fun t strand => add_target t strand ctg [Int 0; Inf]) ["+"; "-"] t)
      | ctg :: coords =>
          let strand := List.last coords "" in
          let coords := List.removelast coords in
          tup ← mapM py_int coords;
          Ok (add_target t strand ctg (map Int tup))
      end
  | _ => Raise AttributeError
  end.

Section Targets.

(** The file system as [get_targets] sees it: [file_lines p] is [Some] of the
    lines a text read of [p] yields when [Path(p).is_file()], else [None]. *)
Variable file_lines : string -> option (list string).

(** [read_lines_to_list(f)] on an existing file. *)
Definition read_lines_to_list (lines : list string) : list string := map strip lines.

(** What the loop [for item in targets] runs over, after the string case. *)
Definition target_items (targets : value) : result (list value) :=
  match targets with
  | VStr path =>
      match file_lines path with
      | Some lines => Ok (map VStr (read_lines_to_list lines))
      | None => Ok (map VStr (chars path))
      end
  | VList items => Ok items
  | VDict d => Ok (map VStr (dict_keys d))
  | VSet names => Ok (map VStr (elements names))
  | VTargets t => Ok (map VStr (elements (dom t)))
  | VBool _ | VInt _ => Raise TypeError
  end.

(** [get_targets(targets)]. *)
Definition get_targets (targets : value) : result target_map :=
  items ← target_items targets;
  foldM parse_item items ∅.

End Targets.

(** ** Run information *)

(** Insertion into a list sorted by [le]: [x] goes before the first element
    it does not exceed, so equal keys keep their order ([sorted] is stable). *)
Fixpoint insert_sorted {A : Type} (le : A -> A -> bool) (x : A) (l : list A) : list A :=
  match l with
  | [] => [x]
  | y :: l' => if le x y then x :: l else y :: insert_sorted le x l'
  end.

Definition sort_by {A : Type} (le : A -> A -> bool) (l : list A) : list A :=
  fold_right (insert_sorted le) [] l.

(** [sorted(L)] on strings. *)
Definition py_sorted (L : list string) : list string := sort_by String.leb L.

(** A condition record: the fields of the [namedtuple], in order. *)
Abbreviation namedtuple := (list (string * value)).

Definition is_ident_start (c : ascii) : bool :=
  let n := nat_of_ascii c in
  ((65 <=? n)%nat && (n <=? 90)%nat) || ((97 <=? n)%nat && (n <=? 122)%nat) || (n =? 95)%nat.

Definition is_ident_char (c : ascii) : bool :=
  is_ident_start c || ((48 <=? nat_of_ascii c)%nat && (nat_of_ascii c <=? 57)%nat).

(** [str.isidentifier] on ASCII names. *)
Definition isidentifier (s : string) : bool :=
  match s with
  | EmptyString => false
  | String c s' => is_ident_start c && forallb is_ident_char (list_ascii_of_string s')
  end.

Definition py_keywords : list string :=
  ["False"; "None"; "True"; "and"; "as"; "assert"; "async"; "await"; "break";
   "class"; "continue"; "def"; "del"; "elif"; "else"; "except"; "finally";
   "for"; "from"; "global"; "if"; "import"; "in"; "is"; "lambda"; "nonlocal";
   "not"; "or"; "pass"; "raise"; "return"; "try"; "while"; "with"; "yield"].

(** What [namedtuple] demands of a field name: an identifier that is not a
    keyword and does not start with an underscore. *)
Definition valid_field (s : string) : bool :=
  isidentifier s
  && negb (existsb (String.eqb s) py_keywords)
  && negb (match s with String "_" _ => true | _ => false end).

(** [named_tuple_generator(dictionary)]: the record has the dictionary's keys
    as fields, in the dictionary's order. *)
Definition named_tuple_generator (dictionary : dict) : result namedtuple :=
  if forallb valid_field (dict_keys dictionary) then Ok dictionary
  else Raise (ValueError msg_field_name).

(** [[k for k in conds.keys() if isinstance(conds.get(k), dict)]]. *)
Definition condition_keys (conds : dict) : list string :=
  List.filter (fun k => is_dict (dict_get k conds)) (dict_keys conds).

(** [[conds.get(k) for k in keys if isinstance(conds.get(k), dict)]]. *)
Definition condition_dicts (conds : dict) (keys : list string) : list dict :=
  flat_map (fun k => match dict_get k conds with
                     | Some (VDict cond) => [cond]
                     | _ => []
                     end) keys.

(** [enumerate(l)]. *)
Definition enumerate {A : Type} (l : list A) : list (nat * A) :=
  combine (seq 0 (length l)) l.

(** The dictionary comprehension that builds [run_info]: a later assignment
    to a key replaces an earlier one. *)
Definition build_run_info (split_channels : list (list Z)) (split_conditions : list namedtuple)
  : gmap Z nat :=
  fold_left
    (fun run_info '(pos, (channels, _)) =>
       fold_left (fun run_info channel => <[channel := pos]> run_info) channels run_info)
    (enumerate (combine split_channels split_conditions))
    ∅.

Section RunInfo.

Variable FLONGLE_CHANNELS : Z -> option (Z * Z).
Variable MINION_CHANNELS : Z -> option (Z * Z).
Variable file_lines : string -> option (list string).

(** [random()]: [random i] is what the [i]-th call made by one run of
    [get_run_info] returns. *)
Variable random : nat -> Q.

(** [sorted(L, key=lambda k: random())]: one draw per element, in order. *)
Definition shuffled (L : list string) : list string :=
  map snd
      (sort_by (fun a b => Qle_bool (fst a) (fst b))
               (combine (map random (seq 0 (length L))) L)).

(** The set built from [_t]: every contig named under some strand. *)
Definition contig_names (coords : target_map) : gset string :=
  list_to_set (concat (map (fun sc => elements (dom (snd sc))) (map_to_list coords))).

(** The body of the loop "convert targets to sets" for the condition [k],
    on the dictionary [conds] that [toml_dict["conditions"]] names.  The
    dictionary is updated in place: the result is its new content, also when
    the body raises. *)
Definition convert_targets (conds : dict) (k : string) : result unit * dict :=
  match dict_get k conds with
  | Some (VDict cond) =>
      match dict_get "targets" cond with
      | None => (Raise (KeyError "targets"), conds)
      | Some targets =>
          match get_targets file_lines targets with
          | Raise e => (Raise e, conds)
          | Ok coords =>
              let cond := dict_set "coords" (VTargets coords) cond in
              let cond := dict_set "targets" (VSet (contig_names coords)) cond in
              (Ok tt, dict_set k (VDict cond) conds)
          end
      end
  | _ => (Ok tt, conds)
  end.

(** The whole loop: stops at the first exception, keeping what was written. *)
Fixpoint convert_all (conditions : list string) (conds : dict) : result unit * dict :=
  match conditions with
  | [] => (Ok tt, conds)
  | k :: rest =>
      match convert_targets conds k with
      | (Ok _, conds') => convert_all rest conds'
      | (Raise e, conds') => (Raise e, conds')
      end
  end.

(** [get_run_info(toml_dict, num_channels)] on a dictionary.  The second
    component is the content of [toml_dict] when the call returns or raises. *)
Definition get_run_info (toml_dict : dict) (num_channels : Z)
  : result (gmap Z nat * list namedtuple * option value) * dict :=
  match dict_get "conditions" toml_dict with
  | None => (Raise (KeyError "conditions"), toml_dict)
  | Some (VDict conds) =>
      let conditions := condition_keys conds in
      let sort_func :=
        if match dict_get "maintain_order" conds with
           | Some v => truthy v
           | None => true
           end
        then py_sorted else shuffled in
      let axis := default (VInt 1) (dict_get "axis" conds) in
      match generate_flowcell FLONGLE_CHANNELS MINION_CHANNELS
                              num_channels (Z.of_nat (length conditions)) axis false with
      | Raise e => (Raise e, toml_dict)
      | Ok split_channels =>
          let '(converted, conds) := convert_all conditions conds in
          let toml_dict := dict_set "conditions" (VDict conds) toml_dict in
          match converted with
          | Raise e => (Raise e, toml_dict)
          | Ok _ =>
              match mapM named_tuple_generator
                         (condition_dicts conds (sort_func (dict_keys conds))) with
              | Raise e => (Raise e, toml_dict)
              | Ok split_conditions =>
                  let run_info := build_run_info split_channels split_conditions in
                  let reference := dict_get "reference" conds in
                  (Ok (run_info, split_conditions, reference), toml_dict)
              end
          end
      end
  | Some _ => (Raise AttributeError, toml_dict)
  end.

End RunInfo.


(** ** Interval membership and string joining *)

Definition msg_min_empty : string := "min() arg is an empty sequence".

(** [a < b] and [a <= b] between an [int] and an [int] or [float("inf")]. *)
Definition bound_ltb (a b : bound) : bool :=
  match a, b with
  | Int x, Int y => x <? y
  | Int _, Inf => true
  | Inf, _ => false
  end.

Definition bound_leb (a b : bound) : bool :=
  match a, b with
  | Int x, Int y => x <=? y
  | _, Inf => true
  | Inf, Int _ => false
  end.

(** [min(coords)] and [max(coords)] on a non-empty tuple starting with [x]:
    the first smallest, the first largest. *)
Definition bound_min (x : bound) (xs : list bound) : bound :=
  fold_left (fun best y => if bound_ltb y best then y else best) xs x.

Definition bound_max (x : bound) (xs : list bound) : bound :=
  fold_left (fun best y => if bound_ltb best y then y else best) xs x.

(** [between(pos, coords)] for an integer position: the chained comparison
    [min(coords) <= pos <= max(coords)], which asks for the maximum only when
    the first comparison holds. *)
Definition between (pos : Z) (coords : list bound) : result bool :=
  match coords with
  | [] => Raise (ValueError msg_min_empty)
  | x :: xs =>
      if bound_leb (bound_min x xs) (Int pos)
      then Ok (bound_leb (Int pos) (bound_max x xs))
      else Ok false
  end.


(** ** Reference definitions used by the statements *)

(** The channels of a flowcell, ascending: 1, 2, ..., [flowcell_size]. *)
Definition channels (flowcell_size : Z) : list Z :=
  map Z.of_nat (seq 1 (Z.to_nat flowcell_size)).

(** Number of occurrences of a channel in a list. *)
Definition occurrences (c : Z) (l : list Z) : nat := count_occ Z.eq_dec l c.

(** [c] occurs once in one group and in no other group. *)
Definition in_exactly_one (c : Z) (groups : list (list Z)) (i : nat) : Prop :=
  exists g, groups !! i = Some g /\ occurrences c g = 1%nat /\
            forall j g', groups !! j = Some g' -> j <> i -> ~ In c g'.

(** What the geometry needs of a layout dictionary on the channels
    [1 .. size]: coordinates are not negative, and no two channels share a
    cell. *)
Definition layout_wf (table : Z -> option (Z * Z)) (size : Z) : Prop :=
  (forall c x y, 1 <= c <= size -> table c = Some (x, y) -> 0 <= x /\ 0 <= y) /\
  (forall c c' xy, 1 <= c <= size -> 1 <= c' <= size ->
                   table c = Some xy -> table c' = Some xy -> c = c').

(** A layout dictionary has an entry for every channel of [1 .. size], inside
    a grid of [rows] by [cols] whose last row and last column are in use. *)
Definition layout_extent (table : Z -> option (Z * Z)) (size rows cols : Z) : Prop :=
  (forall c, 1 <= c <= size ->
             exists x y, table c = Some (x, y) /\ 0 <= x < cols /\ 0 <= y < rows) /\
  (exists c x, 1 <= c <= size /\ table c = Some (x, rows - 1)) /\
  (exists c y, 1 <= c <= size /\ table c = Some (cols - 1, y)).

(** Two layouts of the right extents, to instantiate the dictionaries that
    [ru.channels] supplies: 512 channels filling 16 rows by 32 columns with
    channel 1 at column 31, row 0, and 126 channels on 10 rows by 13 columns
    with the last four cells of row 0 left empty. *)
Definition example_minion (c : Z) : option (Z * Z) :=
  if (1 <=? c) && (c <=? 512) then Some (31 - (c - 1) / 16, (c - 1) mod 16) else None.

Definition example_flongle (c : Z) : option (Z * Z) :=
  if (1 <=? c) && (c <=? 126) then
    let k := if c <=? 9 then c - 1 else c + 3 in Some (k mod 13, k / 13)
  else None.

(** A file system without files, and a constant random source. *)
Definition no_files (_ : string) : option (list string) := None.
Definition constant_random (_ : nat) : Q := 0%Q.

(** A configuration with two conditions and no [reference]. *)
Definition example_conditions : dict :=
  [("axis", VInt 1);
   ("0", VDict [("name", VStr "control"); ("targets", VList [VStr "chr1"])]);
   ("1", VDict [("name", VStr "enrich");
                ("targets", VList [VStr "chr2,10,20,+"; VStr "chr3"])])].

Definition example_config : dict := [("conditions", VDict example_conditions)].

(** The call of [get_run_info] on that configuration, for 3000 channels. *)
Definition example_call : result (gmap Z nat * list namedtuple * option value) * dict :=
  get_run_info example_flongle example_minion no_files constant_random example_config 3000.

(** The same two conditions split by rows, and the call on 126 channels. *)
Definition example_config_rows : dict :=
  [("conditions",
    VDict [("axis", VInt 0);
           ("0", VDict [("name", VStr "control"); ("targets", VList [VStr "chr1"])]);
           ("1", VDict [("name", VStr "enrich");
                        ("targets", VList [VStr "chr2,10,20,+"; VStr "chr3"])])])].

Definition example_call_flongle
  : result (gmap Z nat * list namedtuple * option value) * dict :=
  get_run_info example_flongle example_minion no_files constant_random example_config_rows 126.

(** ** Definitions used by the proofs *)

(** A grid of [R] rows, each of [C] cells. *)
Definition rect (R C : nat) (b : ndarray) : Prop :=
  length b = R /\ Forall (fun row => length row = C) b.

Definition cell (b : ndarray) (r c : nat) : Z := nth c (nth r b []) 0.

Definition set_cell (b : ndarray) (r c : nat) (x : Z) : ndarray :=
  <[r := <[c := x]> (nth r b [])]> b.

Arguments cell : simpl never.
Arguments set_cell : simpl never.

(** An entry (column, row, channel) lies inside a grid of [R] by [C]. *)
Definition in_grid (R C : nat) (e : Z * Z * Z) : Prop :=
  0 <= e.1.1 < Z.of_nat C /\ 0 <= e.1.2 < Z.of_nat R.

Definition cell_of (e : Z * Z * Z) : nat * nat := (Z.to_nat e.1.2, Z.to_nat e.1.1).

(** What the partition needs of [get_coords] on a size: coordinates are not
    negative and no two channels share a cell. *)
Definition coords_wf (F M : Z -> option (Z * Z)) (flowcell_size : Z) : Prop :=
  (forall x col row, 1 <= x <= flowcell_size ->
     get_coords F M x flowcell_size = Ok (col, row) -> 0 <= col /\ 0 <= row) /\
  (forall x x' xy, 1 <= x <= flowcell_size -> 1 <= x' <= flowcell_size ->
     get_coords F M x flowcell_size = Ok xy ->
     get_coords F M x' flowcell_size = Ok xy -> x = x').

(** One step of the comprehension: the channels of one group get its index. *)
Definition assign (run_info : gmap Z nat) (entry : nat * (list Z * namedtuple)) : gmap Z nat :=
  let '(pos, (channels, _)) := entry in
  fold_left (fun run_info channel => <[channel := pos]> run_info) channels run_info.

(** A condition keeps every field except [targets] and [coords]. *)
Definition same_but_targets (cond cond' : dict) : Prop :=
  forall f, f <> "targets" -> f <> "coords" -> dict_get f cond' = dict_get f cond.

(** What the call may do to one entry of [conditions]: a condition is
    replaced by a condition with the same other fields, anything else is
    kept. *)
Definition entry_frame (o o' : option value) : Prop :=
  match o with
  | Some (VDict cond) => exists cond', o' = Some (VDict cond') /\ same_but_targets cond cond'
  | _ => o' = o
  end.

Definition conds_frame (conds conds' : dict) : Prop :=
  dict_keys conds' = dict_keys conds /\
  forall k, entry_frame (dict_get k conds) (dict_get k conds').

(** The tuples recorded for a contig on a strand; none when either key is
    absent. *)
Definition intervals (t : target_map) (strand ctg : string) : list (list bound) :=
  default [] (t !! strand ≫= (.!! ctg)).




(** The condition [cond] after its turn in the loop: [coords] holds the
    parsed targets and [targets] the set of their contig names. *)
Definition converted (file_lines : string -> option (list string)) (cond cond' : dict) : Prop :=
  exists targets coords,
    dict_get "targets" cond = Some targets /\
    get_targets file_lines targets = Ok coords /\
    dict_get "targets" cond' = Some (VSet (contig_names coords)) /\
    dict_get "coords" cond' = Some (VTargets coords).

(** A string without a comma. *)
Definition comma_free (s : string) : Prop := ~ In ","%char (list_ascii_of_string s).


(** [x <= y] on interval ends, as a proposition. *)
Definition bound_le (a b : bound) : Prop := bound_leb a b = true.

(** * Properties *)

(** ** Coordinates *)

Lemma get_coords_3000 (F M : Z -> option (Z * Z)) (channel : Z) :
  1 <= channel <= 3000 ->
  get_coords F M channel 3000
  = Ok (((channel - 1) mod 250) mod 10 + (channel - 1) / 250 * 10, ((channel - 1) mod 250) / 10).
Proof.
  intros Hrange. unfold get_coords.
  assert (Hguard : (channel <=? 0) || (3000 <? channel) = false).
  { apply orb_false_iff. split; [apply Z.leb_gt | apply Z.ltb_ge]; lia. }
  rewrite Hguard. reflexivity.
Qed.

(** C2: for every channel 1..3000 on a 3000-channel flowcell, [get_coords]
    returns (column, row) with row = offset // 10 and
    column = offset % 10 + block_index * 10, where
    block_index = (channel - 1) // 250 and offset = (channel - 1) % 250. *)
Theorem get_coords_promethion (F M : Z -> option (Z * Z)) (channel : Z) :
  1 <= channel <= 3000 ->
  let block_index := (channel - 1) / 250 in
  let offset := (channel - 1) mod 250 in
  get_coords F M channel 3000 = Ok (offset mod 10 + block_index * 10, offset / 10).
Proof. intros Hrange block_index offset. now apply get_coords_3000. Qed.

Lemma get_coords_promethion_witness :
  1 <= 251 <= 3000 /\ get_coords example_flongle example_minion 251 3000 = Ok (10, 0).
Proof.
  split; [lia |].
  exact (get_coords_promethion example_flongle example_minion 251 ltac:(lia)).
Defined.

(** C6, as stated, fails: the range check comes first, so an out-of-range
    channel on an unrecognised size gets the out-of-range error. *)
Lemma get_coords_unrecognised_counterexample :
  (128 <> 126 /\ 128 <> 512 /\ 128 <> 3000) /\
  (forall F M, get_coords F M 0 128 = Raise (ValueError msg_channel_range)) /\
  ValueError msg_channel_range <> ValueError msg_size_unrecognised.
Proof.
  split; [lia |]. split; [reflexivity | discriminate].
Qed.

Lemma get_coords_out_of_range (F M : Z -> option (Z * Z)) (channel flowcell_size : Z) :
  channel <= 0 \/ channel > flowcell_size ->
  get_coords F M channel flowcell_size = Raise (ValueError msg_channel_range).
Proof.
  intros Hout. unfold get_coords.
  assert (Hguard : (channel <=? 0) || (flowcell_size <? channel) = true).
  { apply orb_true_iff. destruct Hout; [left; apply Z.leb_le | right; apply Z.ltb_lt]; lia. }
  now rewrite Hguard.
Qed.

Lemma get_coords_unrecognised (F M : Z -> option (Z * Z)) (channel flowcell_size : Z) :
  1 <= channel <= flowcell_size ->
  flowcell_size <> 126 -> flowcell_size <> 512 -> flowcell_size <> 3000 ->
  get_coords F M channel flowcell_size = Raise (ValueError msg_size_unrecognised).
Proof.
  intros Hin H126 H512 H3000. unfold get_coords.
  assert (Hguard : (channel <=? 0) || (flowcell_size <? channel) = false).
  { apply orb_false_iff. split; [apply Z.leb_gt | apply Z.ltb_ge]; lia. }
  rewrite Hguard.
  apply Z.eqb_neq in H126, H512, H3000. now rewrite H3000, H126, H512.
Qed.

(** C6, amended: a channel with channel <= 0 or channel > flowcell_size gets
    the out-of-range error whatever the size; a channel within
    1..flowcell_size on a size other than 126, 512 and 3000 gets the
    unrecognised-size error. *)
Theorem get_coords_errors (F M : Z -> option (Z * Z)) (channel flowcell_size : Z) :
  (channel <= 0 \/ channel > flowcell_size ->
   get_coords F M channel flowcell_size = Raise (ValueError msg_channel_range)) /\
  (1 <= channel <= flowcell_size ->
   flowcell_size <> 126 -> flowcell_size <> 512 -> flowcell_size <> 3000 ->
   get_coords F M channel flowcell_size = Raise (ValueError msg_size_unrecognised)).
Proof.
  split; [apply get_coords_out_of_range | apply get_coords_unrecognised].
Qed.

Lemma get_coords_errors_witness :
  get_coords example_flongle example_minion 513 512 = Raise (ValueError msg_channel_range) /\
  get_coords example_flongle example_minion 100 128 = Raise (ValueError msg_size_unrecognised).
Proof.
  split.
  - apply (proj1 (get_coords_errors example_flongle example_minion 513 512)). lia.
  - apply (proj2 (get_coords_errors example_flongle example_minion 100 128)); lia.
Defined.

(** ** Odd and even channels *)

Lemma channels_nonpos (n : Z) : n <= 0 -> channels n = [].
Proof. intros H. unfold channels. now replace (Z.to_nat n) with 0%nat by lia. Qed.

Lemma channels_succ (n : nat) :
  channels (Z.of_nat (S n)) = channels (Z.of_nat n) ++ [Z.of_nat (S n)].
Proof.
  unfold channels. rewrite !Nat2Z.id, seq_S, map_app. reflexivity.
Qed.

Lemma py_range_succ (start : Z) (step : Z) (k : nat) (stop stop' : Z) :
  Z.to_nat ((stop - start + step - 1) / step) = k ->
  Z.to_nat ((stop' - start + step - 1) / step) = S k ->
  py_range start stop' step = py_range start stop step ++ [start + step * Z.of_nat k].
Proof.
  intros Hk Hk'. unfold py_range. rewrite Hk, Hk', seq_S, map_app. reflexivity.
Qed.

Lemma py_range_same (start step stop stop' : Z) :
  Z.to_nat ((stop - start + step - 1) / step) = Z.to_nat ((stop' - start + step - 1) / step) ->
  py_range start stop' step = py_range start stop step.
Proof. intros Hk. unfold py_range. now rewrite Hk. Qed.

Lemma div2_eq (a m r : Z) : a = 2 * m + r -> 0 <= r < 2 -> a / 2 = m.
Proof. intros Ha Hr. symmetry. apply Z.div_unique with (r := r); lia. Qed.

(** [range(1, n + 1, 2)] lists the odd channels, [range(2, n + 1, 2)] the
    even ones, both ascending. *)
Lemma py_range_odd_even (n : nat) :
  py_range 1 (Z.of_nat n + 1) 2 = List.filter Z.odd (channels (Z.of_nat n)) /\
  py_range 2 (Z.of_nat n + 1) 2 = List.filter Z.even (channels (Z.of_nat n)).
Proof.
  induction n as [| n [IHodd IHeven]]; [split; reflexivity |].
  rewrite channels_succ, !List.filter_app. cbn [List.filter].
  destruct (Z.odd (Z.of_nat (S n))) eqn:Hodd.
  - assert (Heven : Z.even (Z.of_nat (S n)) = false)
      by (rewrite <- Z.negb_odd, Hodd; reflexivity).
    rewrite Heven, app_nil_r, <- IHodd, <- IHeven.
    apply Z.odd_spec in Hodd. destruct Hodd as [m Hm]. split.
    + rewrite (py_range_succ 1 2 (Z.to_nat m) (Z.of_nat n + 1)).
      * do 2 f_equal. lia.
      * rewrite (div2_eq _ m 1); lia.
      * rewrite (div2_eq _ (m + 1) 0); lia.
    + apply py_range_same.
      rewrite (div2_eq (Z.of_nat n + 1 - 2 + 2 - 1) m 0) by lia.
      rewrite (div2_eq _ m 1); lia.
  - assert (Heven : Z.even (Z.of_nat (S n)) = true)
      by (rewrite <- Z.negb_odd, Hodd; reflexivity).
    rewrite Heven, app_nil_r, <- IHodd, <- IHeven.
    apply Z.even_spec in Heven. destruct Heven as [m Hm]. split.
    + apply py_range_same.
      rewrite (div2_eq (Z.of_nat n + 1 - 1 + 2 - 1) m 0) by lia.
      rewrite (div2_eq _ m 1); lia.
    + rewrite (py_range_succ 2 2 (Z.to_nat (m - 1)) (Z.of_nat n + 1)).
      * do 2 f_equal. lia.
      * rewrite (div2_eq _ (m - 1) 1); lia.
      * rewrite (div2_eq _ m 0); lia.
Qed.

Lemma py_range_nonpos (start stop step : Z) :
  0 < step -> stop <= start -> py_range start stop step = [].
Proof.
  intros Hstep Hle. unfold py_range.
  replace (Z.to_nat ((stop - start + step - 1) / step)) with 0%nat; [reflexivity |].
  assert ((stop - start + step - 1) / step < 1); [| lia].
  apply Z.div_lt_upper_bound; lia.
Qed.

Lemma odd_even_groups (F M : Z -> option (Z * Z)) (flowcell_size split : Z) (axis : value) :
  generate_flowcell F M flowcell_size split axis true =
    Ok [List.filter Z.odd (channels flowcell_size); List.filter Z.even (channels flowcell_size)].
Proof.
  unfold generate_flowcell.
  destruct (Z.le_gt_cases flowcell_size 0) as [Hle | Hgt].
  - rewrite channels_nonpos by assumption.
    rewrite !py_range_nonpos by lia. reflexivity.
  - destruct (py_range_odd_even (Z.to_nat flowcell_size)) as [Hodd Heven].
    rewrite Z2Nat.id in Hodd, Heven by lia.
    now rewrite Hodd, Heven.
Qed.

(** C10: with [odd_even] true, [generate_flowcell] never fails and looks at
    neither [split], [axis] nor the layout: for every flowcell size it
    returns the ascending odd channels of 1..flowcell_size, then the
    ascending even ones. *)
Theorem generate_flowcell_odd_even
  (F M : Z -> option (Z * Z)) (flowcell_size split : Z) (axis : value) :
  generate_flowcell F M flowcell_size split axis true =
    Ok [List.filter Z.odd (channels flowcell_size); List.filter Z.even (channels flowcell_size)].
Proof. apply odd_even_groups. Qed.

(** ** The split check *)

(** C4, as stated, fails: the grid is built before [split] is looked at, so
    on an unrecognised size the unrecognised-size error is raised, not the
    invalid-split one. *)
Lemma generate_flowcell_split_first_counterexample :
  0 <= 0 /\
  (forall F M, generate_flowcell F M 128 0 (VInt 1) false
               = Raise (ValueError msg_size_unrecognised)) /\
  ValueError msg_size_unrecognised <> ValueError msg_split_positive.
Proof.
  split; [lia |]. split; [reflexivity | discriminate].
Qed.

Lemma get_flowcell_array_unrecognised (F M : Z -> option (Z * Z)) (flowcell_size : Z) :
  0 < flowcell_size ->
  flowcell_size <> 126 -> flowcell_size <> 512 -> flowcell_size <> 3000 ->
  get_flowcell_array F M flowcell_size = Raise (ValueError msg_size_unrecognised).
Proof.
  intros Hpos H126 H512 H3000.
  unfold get_flowcell_array, channel_coords, py_range.
  replace (Z.to_nat ((flowcell_size + 1 - 1 + 1 - 1) / 1))
    with (S (Z.to_nat (flowcell_size - 1))) by (rewrite Z.div_1_r; lia).
  cbn [seq map mapM].
  replace (1 + 1 * Z.of_nat 0) with 1 by lia.
  rewrite (get_coords_unrecognised F M 1 flowcell_size) by (assumption || lia).
  reflexivity.
Qed.

(** C4, amended: with [odd_even] false and split <= 0, [generate_flowcell]
    first builds the grid and then rejects [split]: it raises the
    invalid-split error whenever the grid of that size can be built (as on
    3000 channels), and otherwise the error of the grid; on an unrecognised
    positive size that is the unrecognised-size error. *)
Theorem generate_flowcell_invalid_split
  (F M : Z -> option (Z * Z)) (flowcell_size split : Z) (axis : value) :
  split <= 0 ->
  (forall arr, get_flowcell_array F M flowcell_size = Ok arr ->
     generate_flowcell F M flowcell_size split axis false
     = Raise (ValueError msg_split_positive)) /\
  (forall e, get_flowcell_array F M flowcell_size = Raise e ->
     generate_flowcell F M flowcell_size split axis false = Raise e) /\
  (flowcell_size = 3000 ->
     generate_flowcell F M flowcell_size split axis false
     = Raise (ValueError msg_split_positive)) /\
  (0 < flowcell_size ->
   flowcell_size <> 126 -> flowcell_size <> 512 -> flowcell_size <> 3000 ->
     generate_flowcell F M flowcell_size split axis false
     = Raise (ValueError msg_size_unrecognised)).
Proof.
  intros Hsplit. apply Z.leb_le in Hsplit.
  assert (Hok : forall arr, get_flowcell_array F M flowcell_size = Ok arr ->
                generate_flowcell F M flowcell_size split axis false
                = Raise (ValueError msg_split_positive)).
  { intros arr Harr. unfold generate_flowcell. rewrite Harr. cbn. now rewrite Hsplit. }
  assert (Herr : forall e, get_flowcell_array F M flowcell_size = Raise e ->
                 generate_flowcell F M flowcell_size split axis false = Raise e).
  { intros e Harr. unfold generate_flowcell. now rewrite Harr. }
  repeat split; try assumption.
  - intros ->.
    destruct (get_flowcell_array F M 3000) as [arr | e] eqn:Harr; [exact (Hok arr eq_refl) |].
    exfalso. revert Harr. vm_compute. discriminate.
  - intros. apply Herr, get_flowcell_array_unrecognised; assumption.
Qed.

Lemma generate_flowcell_invalid_split_witness :
  generate_flowcell example_flongle example_minion 3000 (-2) (VInt 1) false
  = Raise (ValueError msg_split_positive).
Proof.
  apply (generate_flowcell_invalid_split example_flongle example_minion 3000 (-2) (VInt 1));
    [lia | reflexivity].
Defined.

(** ** Parsing target descriptors *)

(** C8: [get_targets(["chr1,10,20,+"])] is the dictionary with the single
    strand "+" holding [(10, 20)] for "chr1", so it has no entry for "-";
    [get_targets(["chr1"])] holds the interval (0, inf) for "chr1" on both
    strands. *)
Theorem get_targets_examples (file_lines : string -> option (list string)) :
  (get_targets file_lines (VList [VStr "chr1,10,20,+"])
   = Ok {[ "+" := {[ "chr1" := [[Int 10; Int 20]] ]} ]}
   /\ ({[ "+" := {[ "chr1" := [[Int 10; Int 20]] ]} ]} : target_map) !! "-" = None) /\
  get_targets file_lines (VList [VStr "chr1"])
  = Ok {[ "+" := {[ "chr1" := [[Int 0; Inf]] ]};
          "-" := {[ "chr1" := [[Int 0; Inf]] ]} ]}.
Proof.
  split; [split |]; vm_compute; reflexivity.
Qed.

Lemma is_Ok_true {A : Type} (r : result A) : is_Ok r = true -> exists a, r = Ok a.
Proof. destruct r as [a | e]; [eauto | discriminate]. Qed.

(** ** Building the grid *)

(** Reduce the binds of [result] whose first argument is a value. *)
Ltac run_bind := cbn [mbind result_bind bind].
Tactic Notation "run_bind" "in" hyp(H) := cbn [mbind result_bind bind] in H.

Lemma mapM_Ok {A B : Type} (f : A -> result B) (xs : list A) (ys : list B) :
  mapM f xs = Ok ys -> Forall2 (fun x y => f x = Ok y) xs ys.
Proof.
  revert ys. induction xs as [| x xs IH]; intros ys H; cbn in H.
  - injection H as <-. constructor.
  - destruct (f x) as [y | e] eqn:Hfx; cbn in H; [| discriminate].
    destruct (mapM f xs) as [ys' | e]; cbn in H; [| discriminate].
    injection H as <-. constructor; auto.
Qed.

Lemma mapM_total {A B : Type} (f : A -> result B) (xs : list A) :
  (forall x, In x xs -> exists y, f x = Ok y) -> exists ys, mapM f xs = Ok ys.
Proof.
  induction xs as [| x xs IH]; intros H; cbn.
  - eauto.
  - destruct (H x (or_introl eq_refl)) as [y ->].
    destruct IH as [ys ->]; [intros; apply H; now right |]. cbn. eauto.
Qed.

Lemma py_range_channels (n : Z) : py_range 1 (n + 1) 1 = channels n.
Proof.
  unfold py_range, channels.
  replace ((n + 1 - 1 + 1 - 1) / 1) with n by (rewrite Z.div_1_r; lia).
  rewrite <- seq_shift, map_map. apply map_ext. intros i. lia.
Qed.

Lemma in_channels (n c : Z) : In c (channels n) <-> 1 <= c <= n.
Proof.
  unfold channels. rewrite in_map_iff. split.
  - intros (i & <- & Hi). apply in_seq in Hi. lia.
  - intros Hc. exists (Z.to_nat c). split; [lia |]. apply in_seq. lia.
Qed.

Lemma NoDup_channels (n : Z) : List.NoDup (channels n).
Proof.
  unfold channels. apply Finite.Injective_map_NoDup.
  - intros i j. lia.
  - apply seq_NoDup.
Qed.

Lemma occurrences_app (v : Z) (l1 l2 : list Z) :
  occurrences v (l1 ++ l2) = (occurrences v l1 + occurrences v l2)%nat.
Proof. apply count_occ_app. Qed.

Lemma occurrences_channels (n c : Z) :
  1 <= c <= n -> occurrences c (channels n) = 1%nat.
Proof.
  intros Hc. unfold occurrences.
  apply (proj1 (List.NoDup_count_occ' Z.eq_dec (channels n)) (NoDup_channels n)).
  now apply in_channels.
Qed.

(** [py_max] returns an element of the list whose key bounds every key. *)
Lemma py_max_spec {A : Type} (key : A -> Z) (xs : list A) (m : A) :
  py_max key xs = Ok m -> In m xs /\ forall x, In x xs -> key x <= key m.
Proof.
  destruct xs as [| x0 xs]; cbn; [discriminate |]. intros H. injection H as <-.
  revert x0. induction xs as [| y ys IH]; intros x0; cbn.
  - split; [now left |]. intros x [<- | []]. lia.
  - destruct (IH (if key x0 <? key y then y else x0)) as [Hin Hmax].
    split.
    + destruct Hin as [Hin | Hin]; [| now right; right].
      rewrite <- Hin. destruct (key x0 <? key y); [right; now left | now left].
    + intros x [Hx | [Hx | Hx]]; subst.
      * etransitivity; [| apply Hmax; now left].
        destruct (key x <? key y) eqn:Hlt; [apply Z.ltb_lt in Hlt |]; lia.
      * etransitivity; [| apply Hmax; now left].
        destruct (key x0 <? key x) eqn:Hlt; [| apply Z.ltb_ge in Hlt]; lia.
      * apply Hmax. now right.
Qed.

Lemma rect_zeros (R C : nat) : rect R C (repeat (repeat 0 C) R).
Proof.
  split; [apply repeat_length |].
  apply List.Forall_forall. intros row Hrow. apply repeat_spec in Hrow. subst.
  apply repeat_length.
Qed.

Lemma rect_row (R C : nat) (b : ndarray) (r : nat) :
  rect R C b -> (r < R)%nat -> length (nth r b []) = C.
Proof.
  intros [Hlen Hrows] Hr. rewrite List.Forall_forall in Hrows.
  apply Hrows, nth_In. lia.
Qed.

Lemma rect_set_cell (R C : nat) (b : ndarray) (r c : nat) (x : Z) :
  rect R C b -> (r < R)%nat -> rect R C (set_cell b r c x).
Proof.
  intros Hrect Hr. pose proof (rect_row R C b r Hrect Hr) as Hrow.
  destruct Hrect as [Hlen Hrows]. unfold set_cell. split.
  - now rewrite length_insert.
  - apply Forall_insert; [assumption |]. now rewrite length_insert.
Qed.

Lemma norm_index_in_range (n : nat) (i : Z) :
  0 <= i < Z.of_nat n -> norm_index n i = Ok (Z.to_nat i).
Proof.
  intros Hi. unfold norm_index.
  replace (0 <=? i) with true by (symmetry; apply Z.leb_le; lia).
  replace (i <? Z.of_nat n) with true by (symmetry; apply Z.ltb_lt; lia).
  reflexivity.
Qed.

Lemma add_at_in_range (R C : nat) (b : ndarray) (row col chan : Z) :
  rect R C b -> 0 <= row < Z.of_nat R -> 0 <= col < Z.of_nat C ->
  add_at b row col chan
  = Ok (set_cell b (Z.to_nat row) (Z.to_nat col)
                 (cell b (Z.to_nat row) (Z.to_nat col) + chan)).
Proof.
  intros Hrect Hrow Hcol. unfold add_at.
  rewrite norm_index_in_range by (destruct Hrect as [-> _]; lia). cbn.
  rewrite norm_index_in_range by (rewrite (rect_row R C) by (assumption || lia); lia).
  reflexivity.
Qed.

Lemma cell_set_cell_other (R C : nat) (b : ndarray) (r c r' c' : nat) (x : Z) :
  rect R C b -> (r < R)%nat -> (r, c) <> (r', c') ->
  cell (set_cell b r c x) r' c' = cell b r' c'.
Proof.
  intros Hrect Hr Hne. unfold cell, set_cell.
  destruct (decide (r = r')) as [<- | Hrr].
  - rewrite !nth_lookup, list_lookup_insert_eq by (destruct Hrect as [-> _]; lia).
    cbn. rewrite <- (nth_lookup b r []).
    rewrite !nth_lookup, list_lookup_insert_ne by congruence. reflexivity.
  - rewrite (nth_lookup _ r'), list_lookup_insert_ne by assumption.
    now rewrite <- nth_lookup.
Qed.

Lemma occurrences_insert (l : list Z) (i : nat) (x v : Z) :
  (i < length l)%nat ->
  (occurrences v (<[i := x]> l) + occurrences v [nth i l 0%Z]
   = occurrences v l + occurrences v [x])%nat.
Proof.
  intros Hi.
  destruct (lookup_lt_is_Some_2 l i Hi) as [y Hy].
  rewrite (nth_lookup_Some l i 0 y Hy), insert_take_drop by assumption.
  rewrite <- (take_drop_middle l i y Hy) at 3.
  rewrite !occurrences_app.
  change (x :: drop (S i) l) with ([x] ++ drop (S i) l).
  change (y :: drop (S i) l) with ([y] ++ drop (S i) l).
  rewrite !occurrences_app. lia.
Qed.

Lemma occurrences_concat_insert (b : ndarray) (r : nat) (row' : list Z) (v : Z) :
  (r < length b)%nat ->
  (occurrences v (concat (<[r := row']> b)) + occurrences v (nth r b [])
   = occurrences v (concat b) + occurrences v row')%nat.
Proof.
  intros Hr.
  destruct (lookup_lt_is_Some_2 b r Hr) as [row Hrow].
  rewrite (nth_lookup_Some b r [] row Hrow), insert_take_drop by assumption.
  rewrite <- (take_drop_middle b r row Hrow) at 3.
  rewrite !concat_app. cbn [concat]. rewrite !occurrences_app. lia.
Qed.

Lemma occurrences_set_cell (R C : nat) (b : ndarray) (r c : nat) (x v : Z) :
  rect R C b -> (r < R)%nat -> (c < C)%nat ->
  (occurrences v (concat (set_cell b r c x)) + occurrences v [cell b r c]
   = occurrences v (concat b) + occurrences v [x])%nat.
Proof.
  intros Hrect Hr Hc. unfold set_cell, cell.
  pose proof (rect_row R C b r Hrect Hr) as Hrow.
  pose proof (occurrences_concat_insert b r (<[c := x]> (nth r b [])) v) as H1.
  pose proof (occurrences_insert (nth r b []) c x v) as H2.
  destruct Hrect as [Hlen _]. lia.
Qed.

Lemma place_in_grid (R C : nat) (b : ndarray) (e : Z * Z * Z) :
  rect R C b -> in_grid R C e ->
  place b e = Ok (set_cell b (cell_of e).1 (cell_of e).2
                           (cell b (cell_of e).1 (cell_of e).2 + e.2)).
Proof.
  destruct e as [[col row] chan]. intros Hrect [Hcol Hrow]. cbn in *.
  now apply (add_at_in_range R C).
Qed.

(** The loop that fills the grid succeeds and keeps the shape. *)
Lemma foldM_place_rect (R C : nat) (coords : list (Z * Z * Z)) (b : ndarray) :
  rect R C b -> List.Forall (in_grid R C) coords ->
  exists b', foldM place coords b = Ok b' /\ rect R C b'.
Proof.
  revert b. induction coords as [| e coords IH]; intros b Hrect Hin; cbn.
  - eauto.
  - inversion Hin as [| ? ? He Hrest]; subst.
    rewrite (place_in_grid R C) by assumption. cbn.
    apply IH; [| assumption].
    apply rect_set_cell; [assumption |]. destruct He as [_ He]. cbn. lia.
Qed.

(** When the entries go to distinct cells that are still zero, the filled
    grid holds each channel as often as the entries name it. *)
Lemma foldM_place_occurrences (R C : nat) (coords : list (Z * Z * Z)) :
  forall b b',
    rect R C b -> List.Forall (in_grid R C) coords ->
    List.NoDup (map cell_of coords) ->
    List.Forall (fun e => cell b (cell_of e).1 (cell_of e).2 = 0) coords ->
    foldM place coords b = Ok b' ->
    forall v, v <> 0 ->
      occurrences v (concat b')
      = (occurrences v (concat b) + occurrences v (map snd coords))%nat.
Proof.
  induction coords as [| e coords IH]; intros b b' Hrect Hin Hnodup Hzero Hfold v Hv.
  - cbn in Hfold. injection Hfold as <-. cbn. lia.
  - inversion Hin as [| ? ? He Hrest]; subst.
    inversion Hzero as [| ? ? Hze Hzrest]; subst.
    inversion Hnodup as [| ? ? Hfresh Hnodup']; subst.
    change (foldM place (e :: coords) b)
      with (bind (place b e) (foldM place coords)) in Hfold.
    rewrite (place_in_grid R C) in Hfold by assumption. cbn [bind] in Hfold.
    assert (Hr : ((cell_of e).1 < R)%nat) by (destruct He as [_ He]; cbn; lia).
    assert (Hc : ((cell_of e).2 < C)%nat) by (destruct He as [He _]; cbn; lia).
    rewrite Hze in Hfold. replace (0 + e.2) with e.2 in Hfold by lia.
    set (b1 := set_cell b (cell_of e).1 (cell_of e).2 e.2) in *.
    assert (Hrect1 : rect R C b1) by now apply rect_set_cell.
    assert (Hzero1 : List.Forall (fun e' => cell b1 (cell_of e').1 (cell_of e').2 = 0) coords).
    { apply List.Forall_forall. intros e' He'. unfold b1.
      rewrite (cell_set_cell_other R C); try assumption.
      - rewrite List.Forall_forall in Hzrest. now apply Hzrest.
      - intros Heq. apply Hfresh. apply in_map_iff. exists e'. split; [| assumption].
        now destruct (cell_of e), (cell_of e'). }
    rewrite (IH b1 b' Hrect1 Hrest Hnodup' Hzero1 Hfold v Hv).
    pose proof (occurrences_set_cell R C b _ _ e.2 v Hrect Hr Hc) as Hset.
    fold b1 in Hset. rewrite Hze in Hset.
    change (map snd (e :: coords)) with ([e.2] ++ map snd coords).
    rewrite occurrences_app.
    assert (occurrences v [0] = 0%nat) as Hz.
    { unfold occurrences. apply count_occ_not_In. intros [H0 | []]. congruence. }
    lia.
Qed.

Lemma channel_coords_spec (F M : Z -> option (Z * Z)) (flowcell_size : Z)
      (coords : list (Z * Z * Z)) :
  channel_coords F M flowcell_size = Ok coords ->
  Forall2 (fun x e => get_coords F M x flowcell_size = Ok (e.1.1, e.1.2) /\ e.2 = x)
          (channels flowcell_size) coords.
Proof.
  unfold channel_coords. rewrite py_range_channels. intros H.
  apply mapM_Ok in H. eapply Forall2_impl; [exact H |].
  intros x e Hxe. cbn in Hxe.
  destruct (get_coords F M x flowcell_size) as [[col row] | err]; cbn in Hxe; [| discriminate].
  injection Hxe as <-. auto.
Qed.

Lemma channel_coords_channels (F M : Z -> option (Z * Z)) (flowcell_size : Z)
      (coords : list (Z * Z * Z)) :
  channel_coords F M flowcell_size = Ok coords -> map snd coords = channels flowcell_size.
Proof.
  intros H. apply channel_coords_spec in H.
  induction H as [| x e xs es [_ Hx] _ IH]; cbn; [reflexivity |]. now rewrite Hx, IH.
Qed.

(** With the largest row and column known, every entry is inside the grid
    they span, and both maxima are attained. *)
Lemma coords_in_grid (coords : list (Z * Z * Z)) (mr mc : Z * Z * Z) :
  List.Forall (fun e => 0 <= e.1.1 /\ 0 <= e.1.2) coords ->
  py_max (fun e => e.1.2) coords = Ok mr ->
  py_max (fun e => e.1.1) coords = Ok mc ->
  let R := Z.to_nat (mr.1.2 + 1) in
  let C := Z.to_nat (mc.1.1 + 1) in
  Z.of_nat R = mr.1.2 + 1 /\ Z.of_nat C = mc.1.1 + 1 /\
  List.Forall (in_grid R C) coords /\ In mr coords /\ In mc coords.
Proof.
  intros Hnonneg Hmr Hmc R C.
  apply py_max_spec in Hmr, Hmc. destruct Hmr as [Hr_in Hr_max], Hmc as [Hc_in Hc_max].
  rewrite List.Forall_forall in Hnonneg.
  pose proof (Hnonneg mr Hr_in) as [_ Hr0]. pose proof (Hnonneg mc Hc_in) as [Hc0 _].
  assert (HR : Z.of_nat R = mr.1.2 + 1) by (unfold R; lia).
  assert (HC : Z.of_nat C = mc.1.1 + 1) by (unfold C; lia).
  repeat split; try assumption.
  apply List.Forall_forall. intros e He.
  pose proof (Hnonneg e He) as [He1 He2].
  pose proof (Hr_max e He). pose proof (Hc_max e He). cbn in *.
  unfold in_grid. lia.
Qed.

(** The grid of [get_flowcell_array], given the coordinate list and a grid
    size that fits it exactly. *)
Lemma get_flowcell_array_spec (F M : Z -> option (Z * Z)) (flowcell_size : Z)
      (coords : list (Z * Z * Z)) (R C : nat) :
  channel_coords F M flowcell_size = Ok coords ->
  List.Forall (in_grid R C) coords ->
  (exists e, In e coords /\ e.1.2 = Z.of_nat R - 1) ->
  (exists e, In e coords /\ e.1.1 = Z.of_nat C - 1) ->
  exists b, foldM place coords (repeat (repeat 0 C) R) = Ok b /\ rect R C b /\
            get_flowcell_array F M flowcell_size = Ok (rev b).
Proof.
  intros Hcoords Hgrid (er & Her_in & Her) (ec & Hec_in & Hec).
  destruct (foldM_place_rect R C coords _ (rect_zeros R C) Hgrid) as (b & Hfold & Hrect).
  exists b. split; [assumption |]. split; [assumption |].
  unfold get_flowcell_array. rewrite Hcoords. run_bind.
  destruct (py_max (fun e => e.1.2) coords) as [mr | err] eqn:Hmr;
    [| destruct coords; [destruct Her_in | discriminate]].
  destruct (py_max (fun e => e.1.1) coords) as [mc | err] eqn:Hmc;
    [| destruct coords; [destruct Her_in | discriminate]].
  run_bind.
  apply py_max_spec in Hmr, Hmc. destruct Hmr as [Hr_in Hr_max], Hmc as [Hc_in Hc_max].
  rewrite List.Forall_forall in Hgrid.
  assert (HR : mr.1.2 + 1 = Z.of_nat R).
  { pose proof (Hgrid mr Hr_in) as [_ ?]. pose proof (Hr_max er Her_in). cbn in *. lia. }
  assert (HC : mc.1.1 + 1 = Z.of_nat C).
  { pose proof (Hgrid mc Hc_in) as [? _]. pose proof (Hc_max ec Hec_in). cbn in *. lia. }
  change (snd (fst mr)) with (mr.1.2). change (fst (fst mc)) with (mc.1.1).
  rewrite HR, HC. unfold np_zeros.
  replace (Z.of_nat R <? 0) with false by (symmetry; apply Z.ltb_ge; lia).
  replace (Z.of_nat C <? 0) with false by (symmetry; apply Z.ltb_ge; lia).
  cbn [orb]. run_bind. rewrite !Nat2Z.id, Hfold. reflexivity.
Qed.

Lemma Forall2_Forall_r {A B : Type} (P : A -> B -> Prop) (Q : B -> Prop)
      (xs : list A) (ys : list B) :
  Forall2 P xs ys -> (forall x y, In x xs -> P x y -> Q y) -> List.Forall Q ys.
Proof.
  induction 1 as [| x y xs ys Hxy _ IH]; intros HQ; constructor.
  - apply (HQ x); [now left | assumption].
  - apply IH. intros x' y' Hx'. apply HQ. now right.
Qed.

(** Conversely, a grid that was built comes from such a coordinate list. *)
Lemma get_flowcell_array_inv (F M : Z -> option (Z * Z)) (flowcell_size : Z) (arr : ndarray) :
  get_flowcell_array F M flowcell_size = Ok arr ->
  (forall x col row, 1 <= x <= flowcell_size ->
     get_coords F M x flowcell_size = Ok (col, row) -> 0 <= col /\ 0 <= row) ->
  exists coords R C b,
    channel_coords F M flowcell_size = Ok coords /\
    List.Forall (in_grid R C) coords /\ (0 < R)%nat /\
    foldM place coords (repeat (repeat 0 C) R) = Ok b /\ rect R C b /\ arr = rev b.
Proof.
  intros Harr Hnonneg.
  destruct (channel_coords F M flowcell_size) as [coords | err] eqn:Hcoords;
    [| unfold get_flowcell_array in Harr; rewrite Hcoords in Harr; discriminate].
  assert (Hnn : List.Forall (fun e => 0 <= e.1.1 /\ 0 <= e.1.2) coords).
  { apply (Forall2_Forall_r _ _ _ _ (channel_coords_spec F M _ _ Hcoords)).
    intros x e Hx [Hget _]. apply in_channels in Hx. eauto. }
  pose proof Harr as Harr'. unfold get_flowcell_array in Harr'.
  rewrite Hcoords in Harr'. run_bind in Harr'.
  destruct (py_max (fun e => e.1.2) coords) as [mr | err] eqn:Hmr; [| discriminate].
  destruct (py_max (fun e => e.1.1) coords) as [mc | err] eqn:Hmc; [| discriminate].
  clear Harr'.
  destruct (coords_in_grid coords mr mc Hnn Hmr Hmc) as (HR & HC & Hgrid & Hr_in & Hc_in).
  set (R := Z.to_nat (mr.1.2 + 1)) in *. set (C := Z.to_nat (mc.1.1 + 1)) in *.
  destruct (get_flowcell_array_spec F M flowcell_size coords R C Hcoords Hgrid)
    as (b & Hfold & Hrect & Hres).
  { exists mr. split; [assumption | lia]. }
  { exists mc. split; [assumption | lia]. }
  exists coords, R, C, b. repeat split; try assumption; try apply Hrect.
  - rewrite List.Forall_forall in Hnn. pose proof (Hnn mr Hr_in) as [_ ?]. lia.
  - congruence.
Qed.

Lemma occurrences_concat_rev (b : ndarray) (v : Z) :
  occurrences v (concat (rev b)) = occurrences v (concat b).
Proof.
  induction b as [| row b IH]; [reflexivity |].
  cbn [rev concat]. rewrite concat_app, !occurrences_app, IH. cbn [concat].
  rewrite app_nil_r. lia.
Qed.

Lemma rect_rev (R C : nat) (b : ndarray) : rect R C b -> rect R C (rev b).
Proof.
  intros [Hlen Hrows]. split; [now rewrite length_rev |].
  apply List.Forall_forall. intros row Hrow. apply in_rev in Hrow.
  rewrite List.Forall_forall in Hrows. now apply Hrows.
Qed.

Lemma rect_shape (R C : nat) (b : ndarray) :
  rect R C b -> (0 < R)%nat -> shape b = (Z.of_nat R, Z.of_nat C).
Proof.
  intros [Hlen Hrows] HR. unfold shape. destruct b as [| row b]; [cbn in Hlen; lia |].
  inversion Hrows; subst. reflexivity.
Qed.

Lemma Forall2_In_l {A B : Type} (P : A -> B -> Prop) (xs : list A) (ys : list B) (x : A) :
  Forall2 P xs ys -> In x xs -> exists y, In y ys /\ P x y.
Proof.
  induction 1 as [| x' y xs ys Hxy _ IH]; intros Hx; [destruct Hx |].
  destruct Hx as [<- | Hx].
  - exists y. split; [now left | assumption].
  - destruct (IH Hx) as (y' & Hy' & HP). exists y'. split; [now right | assumption].
Qed.

Lemma get_coords_table (F M : Z -> option (Z * Z)) (x : Z) :
  (1 <= x <= 126 -> get_coords F M x 126 = table_lookup F x) /\
  (1 <= x <= 512 -> get_coords F M x 512 = table_lookup M x).
Proof.
  split; intros Hx; unfold get_coords.
  - replace ((x <=? 0) || (126 <? x)) with false; [reflexivity |].
    symmetry. apply orb_false_iff. split; [apply Z.leb_gt | apply Z.ltb_ge]; lia.
  - replace ((x <=? 0) || (512 <? x)) with false; [reflexivity |].
    symmetry. apply orb_false_iff. split; [apply Z.leb_gt | apply Z.ltb_ge]; lia.
Qed.

(** A size served by a layout dictionary of known extent has a grid of that
    extent. *)
Lemma table_grid_shape (F M table : Z -> option (Z * Z)) (flowcell_size : Z) (R C : nat) :
  (forall x, 1 <= x <= flowcell_size ->
             get_coords F M x flowcell_size = table_lookup table x) ->
  (0 < R)%nat ->
  layout_extent table flowcell_size (Z.of_nat R) (Z.of_nat C) ->
  exists arr, get_flowcell_array F M flowcell_size = Ok arr /\
              shape arr = (Z.of_nat R, Z.of_nat C).
Proof.
  intros Hget HR (Hall & (cr & xr & Hcr & Htr) & (cc & yc & Hcc & Htc)).
  destruct (mapM_total
              (fun x => '(col, row) ← get_coords F M x flowcell_size; Ok (col, row, x))
              (py_range 1 (flowcell_size + 1) 1)) as [coords Hcoords].
  { intros x Hx. rewrite py_range_channels in Hx. apply in_channels in Hx.
    rewrite (Hget x Hx). destruct (Hall x Hx) as (col & row & Htab & _).
    unfold table_lookup. rewrite Htab. run_bind. eauto. }
  fold (channel_coords F M flowcell_size) in Hcoords.
  pose proof (channel_coords_spec F M _ _ Hcoords) as Hspec.
  assert (Hentry : forall c col row, 1 <= c <= flowcell_size -> table c = Some (col, row) ->
                   exists e, In e coords /\ e.1.1 = col /\ e.1.2 = row).
  { intros c col row Hc Htab.
    destruct (Forall2_In_l _ _ _ c Hspec) as (e & He & Hge & _); [now apply in_channels |].
    rewrite (Hget c Hc) in Hge. unfold table_lookup in Hge. rewrite Htab in Hge.
    injection Hge as Hcol Hrow. eauto. }
  destruct (get_flowcell_array_spec F M flowcell_size coords R C Hcoords)
    as (b & _ & Hrect & Harr).
  - apply (Forall2_Forall_r _ _ _ _ Hspec). intros x e Hx [Hge _].
    apply in_channels in Hx. rewrite (Hget x Hx) in Hge.
    destruct (Hall x Hx) as (col & row & Htab & Hcol & Hrow).
    unfold table_lookup in Hge. rewrite Htab in Hge. injection Hge as Hc Hr.
    unfold in_grid. rewrite <- Hc, <- Hr. split; assumption.
  - destruct (Hentry cr _ _ Hcr Htr) as (e & He & _ & Hrow). eauto.
  - destruct (Hentry cc _ _ Hcc Htc) as (e & He & Hcol & _). eauto.
  - exists (rev b). split; [assumption |].
    apply rect_shape; [now apply rect_rev | assumption].
Qed.

(** C7: the grid of 512 channels has shape (16, 32), that of 126 channels
    (10, 13) and that of 3000 channels (25, 120); for 126 and 512 the extent
    is that of the layout dictionary. *)
Theorem get_flowcell_array_shape (F M : Z -> option (Z * Z)) :
  layout_extent F 126 10 13 ->
  layout_extent M 512 16 32 ->
  (exists arr, get_flowcell_array F M 512 = Ok arr /\ shape arr = (16, 32)) /\
  (exists arr, get_flowcell_array F M 126 = Ok arr /\ shape arr = (10, 13)) /\
  (exists arr, get_flowcell_array F M 3000 = Ok arr /\ shape arr = (25, 120)).
Proof.
  intros HF HM. repeat split.
  - apply (table_grid_shape F M M 512 16 32); [| lia | exact HM].
    intros x. apply get_coords_table.
  - apply (table_grid_shape F M F 126 10 13); [| lia | exact HF].
    intros x. apply get_coords_table.
  - destruct (get_flowcell_array F M 3000) as [arr | err] eqn:Harr.
    + exists arr. split; [reflexivity |].
      assert (Hshape : match get_flowcell_array F M 3000 with
                       | Ok a => shape a
                       | Raise _ => (25, 120)
                       end = (25, 120)) by (vm_compute; reflexivity).
      now rewrite Harr in Hshape.
    + exfalso. revert Harr. vm_compute. discriminate.
Qed.

Lemma example_flongle_extent : layout_extent example_flongle 126 10 13.
Proof.
  unfold layout_extent, example_flongle. repeat split.
  - intros c Hc.
    replace ((1 <=? c) && (c <=? 126)) with true
      by (symmetry; apply andb_true_iff; split; apply Z.leb_le; lia).
    eexists _, _. split; [reflexivity |].
    destruct (c <=? 9) eqn:H9; [apply Z.leb_le in H9 | apply Z.leb_gt in H9];
      Z.div_mod_to_equations; lia.
  - exists 126, 12. split; [lia | reflexivity].
  - exists 126, 9. split; [lia | reflexivity].
Qed.

Lemma example_minion_extent : layout_extent example_minion 512 16 32.
Proof.
  unfold layout_extent, example_minion. repeat split.
  - intros c Hc.
    replace ((1 <=? c) && (c <=? 512)) with true
      by (symmetry; apply andb_true_iff; split; apply Z.leb_le; lia).
    eexists _, _. split; [reflexivity |]. Z.div_mod_to_equations; lia.
  - exists 16, 31. split; [lia | reflexivity].
  - exists 1, 0. split; [lia | reflexivity].
Qed.

Lemma get_flowcell_array_shape_witness :
  (exists arr, get_flowcell_array example_flongle example_minion 512 = Ok arr /\
               shape arr = (16, 32)) /\
  (exists arr, get_flowcell_array example_flongle example_minion 126 = Ok arr /\
               shape arr = (10, 13)) /\
  (exists arr, get_flowcell_array example_flongle example_minion 3000 = Ok arr /\
               shape arr = (25, 120)).
Proof.
  exact (get_flowcell_array_shape example_flongle example_minion
           example_flongle_extent example_minion_extent).
Defined.

(** ** Splitting the grid *)

Lemma slice_succ {A : Type} (each i : nat) (l : list A) :
  slice (S i * each) each l = slice (i * each) each (skipn each l).
Proof.
  unfold slice. now rewrite skipn_skipn, Nat.add_comm.
Qed.

(** Consecutive slices of equal length put together give the list back. *)
Lemma concat_slices {A : Type} (each s : nat) (l : list A) :
  length l = (s * each)%nat ->
  concat (map (fun i => slice (i * each) each l) (seq 0 s)) = l.
Proof.
  revert l. induction s as [| s IH]; intros l Hlen.
  - destruct l; [reflexivity | discriminate].
  - cbn [seq map concat]. rewrite <- seq_shift, map_map.
    rewrite (map_ext _ (fun i => slice (i * each) each (skipn each l)))
      by (intros i; apply slice_succ).
    rewrite IH by (rewrite length_skipn; lia).
    unfold slice. cbn [Nat.mul skipn]. apply firstn_skipn.
Qed.

Lemma concat_map_concat {A : Type} (L : list (list (list A))) :
  concat (map (fun block => concat block) L) = concat (concat L).
Proof.
  induction L as [| block L IH]; [reflexivity |].
  cbn [map concat]. now rewrite concat_app, IH.
Qed.

Lemma occurrences_concat_map_app {I : Type} (f h : I -> list Z) (idx : list I) (v : Z) :
  occurrences v (concat (map (fun i => f i ++ h i) idx))
  = (occurrences v (concat (map f idx)) + occurrences v (concat (map h idx)))%nat.
Proof.
  induction idx as [| i idx IH]; [reflexivity |].
  cbn [map concat]. rewrite !occurrences_app, IH. lia.
Qed.

Lemma occurrences_concat_nil {I : Type} (idx : list I) (v : Z) :
  occurrences v (concat (map (fun _ => []) idx)) = 0%nat.
Proof. induction idx as [| i idx IH]; [reflexivity | exact IH]. Qed.

(** Cutting every row into the same column blocks only rearranges the grid. *)
Lemma occurrences_column_blocks (each s : nat) (arr : ndarray) (v : Z) :
  List.Forall (fun row => length row = (s * each)%nat) arr ->
  occurrences v (concat (map (fun i => concat (map (slice (i * each) each) arr)) (seq 0 s)))
  = occurrences v (concat arr).
Proof.
  induction 1 as [| row arr Hrow _ IH].
  - apply occurrences_concat_nil.
  - cbn [map concat].
    rewrite (occurrences_concat_map_app
               (fun i => slice (i * each) each row)
               (fun i => concat (map (slice (i * each) each) arr))).
    rewrite IH, concat_slices by assumption. now rewrite occurrences_app.
Qed.

(** [np.split] along either axis, then flattening each block, keeps every
    cell of the grid exactly once, and yields [sections] blocks. *)
Lemma np_split_spec (R C : nat) (arr : ndarray) (sections : Z) (axis : value)
      (blocks : list ndarray) :
  rect R C arr -> (0 < R)%nat ->
  np_split arr sections axis = Ok blocks ->
  length blocks = Z.to_nat sections /\
  forall v, occurrences v (concat (map (fun block => concat block) blocks))
            = occurrences v (concat arr).
Proof.
  intros Hrect HR Hsplit. unfold np_split in Hsplit.
  destruct axis as [| ax | | | | |]; try discriminate.
  rewrite (rect_shape R C arr Hrect HR) in Hsplit. cbn [fst snd] in Hsplit.
  destruct ((ax =? 0) || (ax =? -2)) eqn:Hrows; run_bind in Hsplit;
    [| destruct ((ax =? 1) || (ax =? -1)) eqn:Hcols; run_bind in Hsplit; [| discriminate]].
  - destruct (sections =? 0) eqn:Hz; [discriminate |].
    destruct (Z.of_nat R mod sections =? 0) eqn:Hmod; [| discriminate].
    destruct (sections <? 0) eqn:Hneg; [discriminate |]. cbv beta iota in Hsplit.
    injection Hsplit as <-. split; [now rewrite length_map, length_seq |]. intros v.
    apply Z.eqb_eq in Hmod. apply Z.ltb_ge in Hneg. apply Z.eqb_neq in Hz.
    rewrite concat_map_concat, concat_slices; [reflexivity |].
    destruct Hrect as [-> _].
    pose proof (Z.div_mod (Z.of_nat R) sections Hz) as Hdiv.
    rewrite Hmod in Hdiv. nia.
  - destruct (sections =? 0) eqn:Hz; [discriminate |].
    destruct (Z.of_nat C mod sections =? 0) eqn:Hmod; [| discriminate].
    destruct (sections <? 0) eqn:Hneg; [discriminate |]. cbv beta iota in Hsplit.
    injection Hsplit as <-. split; [now rewrite length_map, length_seq |]. intros v.
    apply Z.eqb_eq in Hmod. apply Z.ltb_ge in Hneg. apply Z.eqb_neq in Hz.
    rewrite map_map. apply occurrences_column_blocks.
    destruct Hrect as [_ Hlens]. eapply List.Forall_impl; [| exact Hlens].
    intros row ->. cbn beta.
    pose proof (Z.div_mod (Z.of_nat C) sections Hz) as Hdiv.
    rewrite Hmod in Hdiv. nia.
Qed.

(** ** Every channel once *)

Lemma table_lookup_Ok (table : Z -> option (Z * Z)) (x : Z) (xy : Z * Z) :
  table_lookup table x = Ok xy <-> table x = Some xy.
Proof.
  unfold table_lookup. destruct (table x); split; intros H; try discriminate;
    injection H as ->; reflexivity.
Qed.

Lemma coords_wf_recognised (F M : Z -> option (Z * Z)) (flowcell_size : Z) :
  layout_wf F 126 -> layout_wf M 512 ->
  flowcell_size = 126 \/ flowcell_size = 512 \/ flowcell_size = 3000 ->
  coords_wf F M flowcell_size.
Proof.
  intros [HF1 HF2] [HM1 HM2] [-> | [-> | ->]]; split.
  - intros x col row Hx Hget.
    rewrite (proj1 (get_coords_table F M x) Hx) in Hget.
    apply table_lookup_Ok in Hget. eauto.
  - intros x x' xy Hx Hx' Hget Hget'.
    rewrite (proj1 (get_coords_table F M x) Hx) in Hget.
    rewrite (proj1 (get_coords_table F M x') Hx') in Hget'.
    apply table_lookup_Ok in Hget, Hget'. eauto.
  - intros x col row Hx Hget.
    rewrite (proj2 (get_coords_table F M x) Hx) in Hget.
    apply table_lookup_Ok in Hget. eauto.
  - intros x x' xy Hx Hx' Hget Hget'.
    rewrite (proj2 (get_coords_table F M x) Hx) in Hget.
    rewrite (proj2 (get_coords_table F M x') Hx') in Hget'.
    apply table_lookup_Ok in Hget, Hget'. eauto.
  - intros x col row Hx Hget.
    rewrite (get_coords_3000 F M x Hx) in Hget. injection Hget as <- <-.
    Z.div_mod_to_equations. lia.
  - intros x x' xy Hx Hx' Hget Hget'.
    rewrite (get_coords_3000 F M x Hx) in Hget.
    rewrite (get_coords_3000 F M x' Hx') in Hget'.
    rewrite <- Hget' in Hget. injection Hget as Hcol Hrow.
    Z.div_mod_to_equations. lia.
Qed.

Lemma Forall2_In_r {A B : Type} (P : A -> B -> Prop) (xs : list A) (ys : list B) (y : B) :
  Forall2 P xs ys -> In y ys -> exists x, In x xs /\ P x y.
Proof.
  induction 1 as [| x y' xs ys Hxy _ IH]; intros Hy; [destruct Hy |].
  destruct Hy as [<- | Hy].
  - exists x. split; [now left | assumption].
  - destruct (IH Hy) as (x' & Hx' & HP). exists x'. split; [now right | assumption].
Qed.

Lemma Forall2_NoDup_map {A B K : Type} (P : A -> B -> Prop) (g : B -> K)
      (xs : list A) (ys : list B) :
  Forall2 P xs ys -> List.NoDup xs ->
  (forall x x' y y', In x xs -> In x' xs -> P x y -> P x' y' -> g y = g y' -> x = x') ->
  List.NoDup (map g ys).
Proof.
  induction 1 as [| x y xs ys Hxy Hrest IH]; intros Hnodup Hinj; cbn; constructor.
  - intros Hin. apply in_map_iff in Hin. destruct Hin as (y' & Hg & Hy').
    destruct (Forall2_In_r _ _ _ y' Hrest Hy') as (x' & Hx' & HP).
    inversion Hnodup as [| ? ? Hfresh _]; subst. apply Hfresh.
    rewrite (Hinj x x' y y'); auto; [now left | now right].
  - inversion Hnodup; subst. apply IH; [assumption |].
    intros x1 x2 y1 y2 Hx1 Hx2. apply Hinj; now right.
Qed.

(** The grid holds every channel of the flowcell exactly once. *)
Lemma get_flowcell_array_occurrences
      (F M : Z -> option (Z * Z)) (flowcell_size : Z) (arr : ndarray) :
  coords_wf F M flowcell_size ->
  get_flowcell_array F M flowcell_size = Ok arr ->
  exists R C, rect R C arr /\ (0 < R)%nat /\
    forall c, 1 <= c <= flowcell_size -> occurrences c (concat arr) = 1%nat.
Proof.
  intros [Hnonneg Hinj] Harr.
  destruct (get_flowcell_array_inv F M flowcell_size arr Harr Hnonneg)
    as (coords & R & C & b & Hcoords & Hgrid & HR & Hfold & Hrect & ->).
  exists R, C. split; [now apply rect_rev |]. split; [assumption |].
  intros c Hc. rewrite occurrences_concat_rev.
  pose proof (channel_coords_spec F M _ _ Hcoords) as Hspec.
  rewrite (foldM_place_occurrences R C coords _ b (rect_zeros R C) Hgrid) with (v := c);
    try assumption; try lia.
  - rewrite (channel_coords_channels F M _ _ Hcoords), occurrences_channels by assumption.
    replace (occurrences c (concat (repeat (repeat 0 C) R))) with 0%nat; [reflexivity |].
    symmetry. apply count_occ_not_In. intros Hin. apply in_concat in Hin.
    destruct Hin as (row & Hrow & Hin). apply repeat_spec in Hrow. subst row.
    apply repeat_spec in Hin. lia.
  - apply (Forall2_NoDup_map _ cell_of _ _ Hspec (NoDup_channels flowcell_size)).
    intros x x' e e' Hx Hx' [Hget _] [Hget' _] Hcell.
    apply in_channels in Hx, Hx'.
    destruct (Hnonneg x _ _ Hx Hget). destruct (Hnonneg x' _ _ Hx' Hget').
    apply (Hinj x x' (e.1.1, e.1.2) Hx Hx' Hget).
    rewrite Hget'. unfold cell_of in Hcell. injection Hcell as Hrow Hcol.
    do 2 f_equal; lia.
  - apply List.Forall_forall. intros e He.
    rewrite List.Forall_forall in Hgrid. destruct (Hgrid e He) as [Hcol Hrow].
    unfold cell. cbn [cell_of fst snd].
    rewrite nth_repeat_lt by lia. apply nth_repeat.
Qed.

(** A successful partition by [split] and [axis] yields [split] groups that
    together hold every channel once. *)
Lemma generate_flowcell_occurrences
      (F M : Z -> option (Z * Z)) (flowcell_size split : Z) (axis : value)
      (groups : list (list Z)) :
  coords_wf F M flowcell_size ->
  generate_flowcell F M flowcell_size split axis false = Ok groups ->
  length groups = Z.to_nat split /\
  forall c, 1 <= c <= flowcell_size -> occurrences c (concat groups) = 1%nat.
Proof.
  intros Hwf Hgen. unfold generate_flowcell in Hgen.
  destruct (get_flowcell_array F M flowcell_size) as [arr | err] eqn:Harr;
    run_bind in Hgen; [| discriminate].
  destruct (split <=? 0); [discriminate |].
  destruct (np_split arr split axis) as [blocks | err] eqn:Hsplit.
  - run_bind in Hgen. injection Hgen as <-.
    destruct (get_flowcell_array_occurrences F M _ _ Hwf Harr) as (R & C & Hrect & HR & Hocc).
    destruct (np_split_spec R C arr split axis blocks Hrect HR Hsplit) as [Hlen Hsame].
    split; [now rewrite length_map |].
    intros c Hc. rewrite Hsame. now apply Hocc.
  - destruct err; discriminate.
Qed.

(** A channel that occurs once in the concatenation of the groups is in
    exactly one group, once. *)
Lemma exactly_one_group (c : Z) (groups : list (list Z)) :
  occurrences c (concat groups) = 1%nat -> exists i, in_exactly_one c groups i.
Proof.
  induction groups as [| g groups IH]; [discriminate |].
  cbn [concat]. rewrite occurrences_app. intros Hocc.
  destruct (occurrences c g) as [| n] eqn:Hg.
  - destruct (IH Hocc) as (i & g' & Hlook & Honce & Hothers).
    exists (S i), g'. split; [exact Hlook |]. split; [exact Honce |].
    intros [| j] g'' Hj Hne.
    + injection Hj as <-. now apply (count_occ_not_In Z.eq_dec).
    + apply (Hothers j g'' Hj). congruence.
  - assert (Hrest : occurrences c (concat groups) = 0%nat) by lia.
    exists 0%nat, g. split; [reflexivity |]. split; [lia |].
    intros [| j] g' Hj Hne; [congruence |].
    intros Hin. apply (count_occ_not_In Z.eq_dec) in Hrest. apply Hrest.
    apply in_concat. exists g'. split; [| assumption].
    apply list_elem_of_In. now apply list_elem_of_lookup_2 with j.
Qed.

(** ** The channel to condition table *)

Lemma fill_lookup_notin (pos : nat) (chs : list Z) (ri : gmap Z nat) (c : Z) :
  ~ In c chs ->
  fold_left (fun run_info channel => <[channel := pos]> run_info) chs ri !! c = ri !! c.
Proof.
  revert ri. induction chs as [| ch chs IH]; intros ri Hnotin; [reflexivity |].
  cbn [fold_left]. rewrite IH by (intros Hin; apply Hnotin; now right).
  apply lookup_insert_ne. intros ->. apply Hnotin. now left.
Qed.

Lemma fill_lookup_in (pos : nat) (chs : list Z) (ri : gmap Z nat) (c : Z) :
  In c chs ->
  fold_left (fun run_info channel => <[channel := pos]> run_info) chs ri !! c = Some pos.
Proof.
  revert ri. induction chs as [| ch chs IH]; intros ri Hin; [destruct Hin |].
  cbn [fold_left]. destruct (in_dec Z.eq_dec c chs) as [Hrest | Hrest].
  - now apply IH.
  - destruct Hin as [-> | Hin]; [| contradiction].
    rewrite fill_lookup_notin by assumption. apply lookup_insert_eq.
Qed.

Lemma build_run_info_assign (split_channels : list (list Z)) (split_conditions : list namedtuple) :
  build_run_info split_channels split_conditions
  = fold_left assign (enumerate (combine split_channels split_conditions)) ∅.
Proof. reflexivity. Qed.

Lemma assign_all_notin (pairs : list (list Z * namedtuple)) (k : nat) (ri : gmap Z nat) (c : Z) :
  (forall j p, pairs !! j = Some p -> ~ In c p.1) ->
  fold_left assign (combine (seq k (length pairs)) pairs) ri !! c = ri !! c.
Proof.
  revert k ri. induction pairs as [| [g cond] pairs IH]; intros k ri Hnotin; [reflexivity |].
  cbn [length seq combine fold_left].
  rewrite IH by (intros j p Hj; apply (Hnotin (S j) p Hj)).
  cbn [assign]. apply fill_lookup_notin. apply (Hnotin 0%nat (g, cond) eq_refl).
Qed.

Lemma assign_lookup (pairs : list (list Z * namedtuple)) (k : nat) (ri : gmap Z nat)
      (c : Z) (i : nat) (p : list Z * namedtuple) :
  pairs !! i = Some p -> In c p.1 ->
  (forall j p', pairs !! j = Some p' -> j <> i -> ~ In c p'.1) ->
  fold_left assign (combine (seq k (length pairs)) pairs) ri !! c = Some (k + i)%nat.
Proof.
  revert k ri i. induction pairs as [| [g cond] pairs IH]; intros k ri i Hi Hin Hothers;
    [discriminate |].
  cbn [length seq combine fold_left]. destruct i as [| i].
  - injection Hi as <-. cbn [fst] in Hin.
    rewrite assign_all_notin
      by (intros j p' Hj; apply (Hothers (S j) p' Hj); discriminate).
    cbn [assign]. rewrite Nat.add_0_r. now apply fill_lookup_in.
  - rewrite (IH (S k) _ i Hi Hin); [f_equal; lia |].
    intros j p' Hj Hne. apply (Hothers (S j) p' Hj). congruence.
Qed.

Lemma combine_lookup_l {A B : Type} (l1 : list A) (l2 : list B) (i : nat) (a : A) :
  length l1 = length l2 -> l1 !! i = Some a -> exists b, combine l1 l2 !! i = Some (a, b).
Proof.
  revert l2 i. induction l1 as [| x l1 IH]; intros [| y l2] i Hlen Hi; try discriminate.
  destruct i as [| i]; cbn in *.
  - injection Hi as ->. eauto.
  - apply IH; [lia | assumption].
Qed.

Lemma combine_lookup_fst {A B : Type} (l1 : list A) (l2 : list B) (i : nat) (p : A * B) :
  combine l1 l2 !! i = Some p -> l1 !! i = Some p.1.
Proof.
  revert l2 i. induction l1 as [| x l1 IH]; intros [| y l2] i Hi; try discriminate.
  destruct i as [| i]; cbn in *.
  - now injection Hi as <-.
  - eapply IH, Hi.
Qed.

(** A channel that lies in exactly one group is mapped to that group's
    index, provided every group is paired with a condition. *)
Lemma build_run_info_lookup (split_channels : list (list Z))
      (split_conditions : list namedtuple) (c : Z) (i : nat) :
  length split_channels = length split_conditions ->
  in_exactly_one c split_channels i ->
  build_run_info split_channels split_conditions !! c = Some i.
Proof.
  intros Hlen (g & Hg & Honce & Hothers).
  rewrite build_run_info_assign. unfold enumerate.
  destruct (combine_lookup_l split_channels split_conditions i g Hlen Hg) as [cond Hpair].
  rewrite (assign_lookup _ 0 ∅ c i (g, cond) Hpair); [reflexivity | |].
  - cbn [fst]. apply (count_occ_In Z.eq_dec). unfold occurrences in Honce. lia.
  - intros j p' Hj Hne. apply (Hothers j p'.1); [| assumption].
    now apply combine_lookup_fst with split_conditions.
Qed.

(** ** Dictionaries *)

Lemma dict_get_set (k k' : string) (v : value) (d : dict) :
  dict_get k' (dict_set k v d) = if String.eqb k' k then Some v else dict_get k' d.
Proof.
  induction d as [| [k0 v0] d IH]; cbn.
  - destruct (String.eqb k' k); reflexivity.
  - destruct (String.eqb k k0) eqn:Hk; cbn.
    + apply String.eqb_eq in Hk. subst k0. destruct (String.eqb k' k); reflexivity.
    + destruct (String.eqb k' k0) eqn:Hk'; [| exact IH].
      apply String.eqb_eq in Hk'. subst k0.
      rewrite String.eqb_sym, Hk. reflexivity.
Qed.

Lemma dict_get_set_eq (k : string) (v : value) (d : dict) :
  dict_get k (dict_set k v d) = Some v.
Proof. now rewrite dict_get_set, String.eqb_refl. Qed.

Lemma dict_get_set_ne (k k' : string) (v : value) (d : dict) :
  k' <> k -> dict_get k' (dict_set k v d) = dict_get k' d.
Proof.
  intros Hne. rewrite dict_get_set.
  now replace (String.eqb k' k) with false by (symmetry; now apply String.eqb_neq).
Qed.

Lemma dict_keys_set (k : string) (v : value) (d : dict) :
  dict_get k d <> None -> dict_keys (dict_set k v d) = dict_keys d.
Proof.
  induction d as [| [k0 v0] d IH]; cbn; [congruence |].
  destruct (String.eqb k k0) eqn:Hk; cbn.
  - apply String.eqb_eq in Hk. now subst.
  - intros Hget. f_equal. now apply IH.
Qed.

Lemma entry_frame_refl (o : option value) : entry_frame o o.
Proof.
  destruct o as [[] |]; cbn; try reflexivity.
  eexists. split; [reflexivity |]. intros f _ _. reflexivity.
Qed.

Lemma entry_frame_trans (o1 o2 o3 : option value) :
  entry_frame o1 o2 -> entry_frame o2 o3 -> entry_frame o1 o3.
Proof.
  unfold entry_frame. destruct o1 as [[] |]; try (intros ->; auto).
  intros (cond2 & -> & H12) (cond3 & -> & H23).
  exists cond3. split; [reflexivity |]. intros f Ht Hc. now rewrite H23, H12.
Qed.

Lemma entry_frame_is_dict (o o' : option value) :
  entry_frame o o' -> is_dict o' = is_dict o.
Proof.
  unfold entry_frame. destruct o as [[] |]; try (intros ->; reflexivity).
  intros (cond' & -> & _). reflexivity.
Qed.

Lemma conds_frame_refl (conds : dict) : conds_frame conds conds.
Proof. split; [reflexivity |]. intros k. apply entry_frame_refl. Qed.

Lemma conds_frame_trans (c1 c2 c3 : dict) :
  conds_frame c1 c2 -> conds_frame c2 c3 -> conds_frame c1 c3.
Proof.
  intros [Hk12 He12] [Hk23 He23]. split; [congruence |].
  intros k. eapply entry_frame_trans; eauto.
Qed.

Section StoreFrame.

Variable file_lines : string -> option (list string).

(** One turn of the loop touches the condition [k] only, and of it only the
    fields [targets] and [coords]. *)
Lemma convert_targets_frame (conds : dict) (k : string) :
  conds_frame conds (convert_targets file_lines conds k).2 /\
  forall k', k' <> k ->
    dict_get k' (convert_targets file_lines conds k).2 = dict_get k' conds.
Proof.
  unfold convert_targets.
  destruct (dict_get k conds) as [[| | | | cond | |] |] eqn:Hk;
    try (split; [apply conds_frame_refl | reflexivity]).
  destruct (dict_get "targets" cond) as [targets |];
    [| split; [apply conds_frame_refl | reflexivity]].
  destruct (get_targets file_lines targets) as [coords | err];
    [| split; [apply conds_frame_refl | reflexivity]].
  cbn [snd]. split; [split |].
  - apply dict_keys_set. congruence.
  - intros k'. rewrite dict_get_set. destruct (String.eqb k' k) eqn:Hkk.
    + apply String.eqb_eq in Hkk. subst k'. rewrite Hk. cbn.
      eexists. split; [reflexivity |]. intros f Ht Hc.
      now rewrite !dict_get_set_ne by assumption.
    + apply entry_frame_refl.
  - intros k' Hne. now apply dict_get_set_ne.
Qed.

Lemma convert_all_frame (conditions : list string) (conds : dict) :
  conds_frame conds (convert_all file_lines conditions conds).2 /\
  forall k', ~ In k' conditions ->
    dict_get k' (convert_all file_lines conditions conds).2 = dict_get k' conds.
Proof.
  revert conds. induction conditions as [| k rest IH]; intros conds.
  - split; [apply conds_frame_refl | reflexivity].
  - cbn [convert_all].
    destruct (convert_targets_frame conds k) as [Hframe Hother].
    destruct (convert_targets file_lines conds k) as [[[] | err] conds1]; cbn [snd] in *.
    + destruct (IH conds1) as [Hframe' Hother']. split.
      * eapply conds_frame_trans; eassumption.
      * intros k' Hnotin. rewrite Hother' by (intros Hin; apply Hnotin; now right).
        apply Hother. intros ->. apply Hnotin. now left.
    + split; [assumption |].
      intros k' Hnotin. apply Hother. intros ->. apply Hnotin. now left.
Qed.

End StoreFrame.

Lemma conds_frame_condition_keys (conds conds' : dict) :
  conds_frame conds conds' -> condition_keys conds' = condition_keys conds.
Proof.
  intros [Hkeys Hentries]. unfold condition_keys. rewrite Hkeys.
  apply List.filter_ext. intros k. apply entry_frame_is_dict, Hentries.
Qed.

(** ** Ordering the conditions *)

Lemma insert_sorted_perm {A : Type} (le : A -> A -> bool) (x : A) (l : list A) :
  Permutation (insert_sorted le x l) (x :: l).
Proof.
  induction l as [| y l IH]; cbn; [reflexivity |].
  destruct (le x y); [reflexivity |].
  rewrite IH. apply perm_swap.
Qed.

Lemma sort_by_perm {A : Type} (le : A -> A -> bool) (l : list A) :
  Permutation (sort_by le l) l.
Proof.
  induction l as [| x l IH]; cbn; [reflexivity |].
  rewrite insert_sorted_perm. now apply perm_skip.
Qed.

Lemma map_snd_combine {A B : Type} (l1 : list A) (l2 : list B) :
  length l1 = length l2 -> map snd (combine l1 l2) = l2.
Proof.
  revert l2. induction l1 as [| x l1 IH]; intros [| y l2] Hlen; try discriminate;
    [reflexivity |].
  cbn. f_equal. apply IH. cbn in Hlen. lia.
Qed.

(** Either ordering of the keys is a rearrangement of them. *)
Lemma shuffled_perm (random : nat -> Q) (L : list string) :
  Permutation (shuffled random L) L.
Proof.
  unfold shuffled. rewrite sort_by_perm.
  rewrite map_snd_combine; [reflexivity |]. now rewrite length_map, length_seq.
Qed.

Lemma filter_length_perm {A : Type} (f : A -> bool) (l l' : list A) :
  Permutation l l' -> length (List.filter f l) = length (List.filter f l').
Proof.
  induction 1 as [| x l l' _ IH | x y l | l1 l2 l3 _ IH1 _ IH2]; cbn.
  - reflexivity.
  - destruct (f x); cbn; congruence.
  - destruct (f x), (f y); reflexivity.
  - congruence.
Qed.

Lemma condition_dicts_length (conds : dict) (keys : list string) :
  length (condition_dicts conds keys)
  = length (List.filter (fun k => is_dict (dict_get k conds)) keys).
Proof.
  unfold condition_dicts. induction keys as [| k keys IH]; [reflexivity |].
  cbn [flat_map List.filter].
  destruct (dict_get k conds) as [[] |]; cbn [is_dict app length]; congruence.
Qed.

Lemma mapM_length {A B : Type} (f : A -> result B) (xs : list A) (ys : list B) :
  mapM f xs = Ok ys -> length ys = length xs.
Proof. intros H. apply mapM_Ok in H. symmetry. eapply Forall2_length, H. Qed.

(** ** What a successful call did *)

Section RunInfoFacts.

Variable F M : Z -> option (Z * Z).
Variable file_lines : string -> option (list string).
Variable random : nat -> Q.

Lemma get_run_info_Ok (toml_dict store' : dict) (num_channels : Z)
      (run_info : gmap Z nat) (split_conditions : list namedtuple) (reference : option value) :
  get_run_info F M file_lines random toml_dict num_channels
  = (Ok (run_info, split_conditions, reference), store') ->
  exists conds split_channels conds',
    dict_get "conditions" toml_dict = Some (VDict conds) /\
    generate_flowcell F M num_channels (Z.of_nat (length (condition_keys conds)))
                      (default (VInt 1) (dict_get "axis" conds)) false
    = Ok split_channels /\
    convert_all file_lines (condition_keys conds) conds = (Ok tt, conds') /\
    store' = dict_set "conditions" (VDict conds') toml_dict /\
    length split_conditions = length (condition_keys conds) /\
    run_info = build_run_info split_channels split_conditions /\
    reference = dict_get "reference" conds'.
Proof.
  unfold get_run_info. intros Hrun.
  destruct (dict_get "conditions" toml_dict) as [[| | | | conds | |] |]; try discriminate.
  destruct (generate_flowcell F M num_channels _ _ false) as [split_channels | err] eqn:Hgen;
    [| discriminate].
  pose proof (convert_all_frame file_lines (condition_keys conds) conds) as [Hframe _].
  destruct (convert_all file_lines (condition_keys conds) conds) as [[[] | err] conds'] eqn:Hconv;
    [| discriminate].
  cbn [snd] in Hframe.
  match type of Hrun with
  | context [mapM named_tuple_generator (condition_dicts conds' (?sort_func (dict_keys conds')))] =>
      set (sorted_keys := sort_func (dict_keys conds')) in *;
      assert (Hperm : Permutation sorted_keys (dict_keys conds'))
        by (subst sorted_keys; destruct (match dict_get "maintain_order" conds with
                                         | Some v => truthy v
                                         | None => true
                                         end); [apply sort_by_perm | apply shuffled_perm])
  end.
  destruct (mapM named_tuple_generator (condition_dicts conds' sorted_keys))
    as [tuples | err] eqn:Htuples; [| discriminate].
  injection Hrun as <- <- <- <-.
  exists conds, split_channels, conds'. repeat split; try reflexivity; try assumption.
  rewrite (mapM_length _ _ _ Htuples), condition_dicts_length.
  rewrite (filter_length_perm _ _ _ Hperm).
  fold (condition_keys conds'). now rewrite (conds_frame_condition_keys conds conds').
Qed.

End RunInfoFacts.

(** ** The partition and the run information cover every channel once *)

Lemma occurrences_filter_odd_even (l : list Z) (c : Z) :
  (occurrences c (List.filter Z.odd l) + occurrences c (List.filter Z.even l))%nat
  = occurrences c l.
Proof.
  unfold occurrences. induction l as [| x l IH]; [reflexivity |].
  cbn [List.filter]. rewrite <- (Z.negb_odd x).
  destruct (Z.odd x); cbn [negb count_occ]; destruct (Z.eq_dec x c); lia.
Qed.

(** C1: on a flowcell of 126, 512 or 3000 channels, every channel of
    1..flowcell_size lies in exactly one group of a successful
    [generate_flowcell], once; and after a successful [get_run_info] it is a
    key of [run_info], mapped to the index of the group that holds it.  The
    two layout dictionaries give non-negative coordinates and put no two
    channels on one cell. *)
Theorem channels_partitioned
        (F M : Z -> option (Z * Z)) (file_lines : string -> option (list string))
        (random : nat -> Q) (flowcell_size : Z) :
  layout_wf F 126 -> layout_wf M 512 ->
  flowcell_size = 126 \/ flowcell_size = 512 \/ flowcell_size = 3000 ->
  (forall split axis odd_even groups,
     generate_flowcell F M flowcell_size split axis odd_even = Ok groups ->
     forall c, 1 <= c <= flowcell_size -> exists i, in_exactly_one c groups i) /\
  (forall toml_dict run_info split_conditions reference store',
     get_run_info F M file_lines random toml_dict flowcell_size
     = (Ok (run_info, split_conditions, reference), store') ->
     exists conds groups,
       dict_get "conditions" toml_dict = Some (VDict conds) /\
       generate_flowcell F M flowcell_size (Z.of_nat (length (condition_keys conds)))
                         (default (VInt 1) (dict_get "axis" conds)) false = Ok groups /\
       forall c, 1 <= c <= flowcell_size ->
         exists i, in_exactly_one c groups i /\ run_info !! c = Some i).
Proof.
  intros HF HM Hsize.
  pose proof (coords_wf_recognised F M flowcell_size HF HM Hsize) as Hwf.
  split.
  - intros split axis [|] groups Hgen c Hc; apply exactly_one_group.
    + rewrite odd_even_groups in Hgen. injection Hgen as <-.
      cbn [concat]. rewrite app_nil_r, occurrences_app, occurrences_filter_odd_even.
      now apply occurrences_channels.
    + now apply (generate_flowcell_occurrences F M flowcell_size split axis groups Hwf Hgen).
  - intros toml_dict run_info split_conditions reference store' Hrun.
    destruct (get_run_info_Ok F M file_lines random _ _ _ _ _ _ Hrun)
      as (conds & groups & conds' & Hconds & Hgen & _ & _ & Hlen & -> & _).
    exists conds, groups. split; [assumption |]. split; [assumption |].
    intros c Hc.
    destruct (generate_flowcell_occurrences F M _ _ _ _ Hwf Hgen) as [Hgroups Hocc].
    destruct (exactly_one_group c groups (Hocc c Hc)) as [i Hi].
    exists i. split; [assumption |].
    apply build_run_info_lookup; [| assumption].
    rewrite Hgroups, Hlen. lia.
Qed.

Lemma example_flongle_wf : layout_wf example_flongle 126.
Proof.
  unfold layout_wf, example_flongle. split.
  - intros c x y Hc.
    replace ((1 <=? c) && (c <=? 126)) with true
      by (symmetry; apply andb_true_iff; split; apply Z.leb_le; lia).
    intros [= <- <-].
    destruct (c <=? 9) eqn:H9; [apply Z.leb_le in H9 | apply Z.leb_gt in H9];
      Z.div_mod_to_equations; lia.
  - intros c c' xy Hc Hc'.
    replace ((1 <=? c) && (c <=? 126)) with true
      by (symmetry; apply andb_true_iff; split; apply Z.leb_le; lia).
    replace ((1 <=? c') && (c' <=? 126)) with true
      by (symmetry; apply andb_true_iff; split; apply Z.leb_le; lia).
    intros [= <-] [= Hcol Hrow]. revert Hcol Hrow.
    destruct (c <=? 9) eqn:H9; [apply Z.leb_le in H9 | apply Z.leb_gt in H9];
      (destruct (c' <=? 9) eqn:H9'; [apply Z.leb_le in H9' | apply Z.leb_gt in H9']);
      intros; Z.div_mod_to_equations; lia.
Qed.

Lemma example_minion_wf : layout_wf example_minion 512.
Proof.
  unfold layout_wf, example_minion. split.
  - intros c x y Hc.
    replace ((1 <=? c) && (c <=? 512)) with true
      by (symmetry; apply andb_true_iff; split; apply Z.leb_le; lia).
    intros [= <- <-]. Z.div_mod_to_equations; lia.
  - intros c c' xy Hc Hc'.
    replace ((1 <=? c) && (c <=? 512)) with true
      by (symmetry; apply andb_true_iff; split; apply Z.leb_le; lia).
    replace ((1 <=? c') && (c' <=? 512)) with true
      by (symmetry; apply andb_true_iff; split; apply Z.leb_le; lia).
    intros [= <-] [= Hcol Hrow]. Z.div_mod_to_equations; lia.
Qed.

Lemma channels_partitioned_witness :
  (exists groups,
     generate_flowcell example_flongle example_minion 512 4 (VInt 1) false = Ok groups /\
     exists i, in_exactly_one 300 groups i) /\
  (exists run_info split_conditions reference store',
     get_run_info example_flongle example_minion no_files constant_random example_config 512
     = (Ok (run_info, split_conditions, reference), store') /\
     exists i, run_info !! 300 = Some i).
Proof.
  pose proof (channels_partitioned example_flongle example_minion no_files constant_random 512
                example_flongle_wf example_minion_wf (or_intror (or_introl eq_refl)))
    as [Hgen Hrun].
  split.
  - destruct (is_Ok_true
                (generate_flowcell example_flongle example_minion 512 4 (VInt 1) false))
      as [groups Hgroups]; [vm_compute; reflexivity |].
    exists groups. split; [assumption |].
    apply (Hgen 4 (VInt 1) false groups Hgroups). lia.
  - destruct (is_Ok_true
                (get_run_info example_flongle example_minion no_files constant_random
                              example_config 512).1)
      as [[[ri sc] ref] Hcall]; [vm_compute; reflexivity |].
    destruct (get_run_info example_flongle example_minion no_files constant_random
                           example_config 512) as [res store'] eqn:Hfull.
    cbn [fst] in Hcall. subst res.
    exists ri, sc, ref, store'. split; [reflexivity |].
    destruct (Hrun _ _ _ _ _ Hfull) as (conds & groups & _ & _ & Hall).
    destruct (Hall 300 ltac:(lia)) as (i & _ & Hi). eauto.
Defined.

(** ** A string that is not a file *)

Lemma intervals_add_target (t : target_map) (s c s' c' : string) (tup : list bound) :
  intervals (add_target t s c tup) s' c'
  = if decide (s = s' /\ c = c') then intervals t s c ++ [tup] else intervals t s' c'.
Proof.
  unfold intervals, add_target.
  destruct (decide (s = s')) as [<- | Hs].
  - rewrite lookup_insert_eq. cbn.
    destruct (decide (c = c')) as [<- | Hc].
    + rewrite lookup_insert_eq. cbn. rewrite decide_True by auto.
      destruct (t !! s) as [contigs |]; reflexivity.
    + rewrite lookup_insert_ne by assumption. rewrite decide_False by tauto.
      destruct (t !! s) as [contigs |]; reflexivity.
  - rewrite lookup_insert_ne by assumption. now rewrite decide_False by tauto.
Qed.









(** ** What the call writes into the configuration *)


Section StoreWrites.

Variable file_lines : string -> option (list string).



End StoreWrites.



Lemma example_call_eq :
  get_run_info example_flongle example_minion no_files constant_random example_config 3000
  = (example_call.1, example_call.2).
Proof. unfold example_call. apply surjective_pairing. Qed.



(** ** The reference *)

(** C5, as stated, fails: a configuration without [reference] is accepted,
    and the reference returned is [None]. *)
Lemma get_run_info_no_reference_counterexample :
  match dict_get "conditions" example_config with
  | Some (VDict conds) => dict_get "reference" conds
  | _ => Some (VBool false)
  end = None /\
  exists run_info split_conditions,
    example_call.1 = Ok (run_info, split_conditions, None).
Proof.
  split; [reflexivity |].
  assert (Hnone : match example_call.1 with
                  | Ok (_, _, None) => true
                  | _ => false
                  end = true) by (vm_compute; reflexivity).
  destruct example_call.1 as [[[ri sc] [ref |]] | err]; try discriminate. eauto.
Qed.

(** C5, amended: a configuration without a [conditions] section fails with
    the missing-key error and is left as it was; a missing [reference] is
    no error: whenever the call returns, the reference it returns is what
    [conditions] holds under [reference], [None] when it is absent and the
    configured string when there is one. *)
Theorem get_run_info_reference
        (F M : Z -> option (Z * Z)) (file_lines : string -> option (list string))
        (random : nat -> Q) (toml_dict : dict) (num_channels : Z) :
  (dict_get "conditions" toml_dict = None ->
   get_run_info F M file_lines random toml_dict num_channels
   = (Raise (KeyError "conditions"), toml_dict)) /\
  (forall conds run_info split_conditions reference store',
     dict_get "conditions" toml_dict = Some (VDict conds) ->
     get_run_info F M file_lines random toml_dict num_channels
     = (Ok (run_info, split_conditions, reference), store') ->
     (dict_get "reference" conds = None -> reference = None) /\
     (forall path, dict_get "reference" conds = Some (VStr path) ->
                   reference = Some (VStr path))).
Proof.
  split.
  - intros Hnone. unfold get_run_info. now rewrite Hnone.
  - intros conds run_info split_conditions reference store' Hconds Hrun.
    destruct (get_run_info_Ok F M file_lines random _ _ _ _ _ _ Hrun)
      as (conds0 & groups & conds' & Hconds0 & _ & Hconv & _ & _ & _ & ->).
    rewrite Hconds in Hconds0. injection Hconds0 as <-.
    destruct (convert_all_frame file_lines (condition_keys conds) conds) as [[_ Hframe] _].
    rewrite Hconv in Hframe. cbn [snd] in Hframe.
    specialize (Hframe "reference"). split.
    + intros Hnone. rewrite Hnone in Hframe. exact Hframe.
    + intros path Hpath. rewrite Hpath in Hframe. exact Hframe.
Qed.

Lemma get_run_info_reference_witness :
  exists run_info split_conditions,
    example_call.1 = Ok (run_info, split_conditions, None).
Proof.
  destruct (is_Ok_true example_call.1) as [[[ri sc] ref] Hcall]; [vm_compute; reflexivity |].
  pose proof example_call_eq as Hrun. rewrite Hcall in Hrun.
  pose proof (proj2 (get_run_info_reference example_flongle example_minion no_files
                       constant_random example_config 3000)
                    example_conditions ri sc ref example_call.2 eq_refl Hrun) as [Hnone _].
  exists ri, sc. rewrite Hcall, (Hnone eq_refl). reflexivity.
Defined.

(** * Further properties of the code *)

(** ** Coordinates on 3000 channels *)

(** X1: on a 3000-channel flowcell [get_coords] puts every channel inside
    the grid of 120 columns by 25 rows, and no two channels on one cell. *)
Theorem get_coords_3000_bijective (F M : Z -> option (Z * Z)) (x x' : Z) :
  1 <= x <= 3000 -> 1 <= x' <= 3000 ->
  (exists col row, get_coords F M x 3000 = Ok (col, row) /\
                   0 <= col < 120 /\ 0 <= row < 25) /\
  (get_coords F M x 3000 = get_coords F M x' 3000 -> x = x').
Proof.
  intros Hx Hx'. rewrite (get_coords_3000 F M x Hx), (get_coords_3000 F M x' Hx'). split.
  - eexists _, _. split; [reflexivity |]. Z.div_mod_to_equations. lia.
  - intros [= Hcol Hrow]. Z.div_mod_to_equations. lia.
Qed.

Lemma get_coords_3000_bijective_witness :
  (exists col row, get_coords example_flongle example_minion 3000 3000 = Ok (col, row) /\
                   0 <= col < 120 /\ 0 <= row < 25) /\
  (get_coords example_flongle example_minion 3000 3000
   = get_coords example_flongle example_minion 2750 3000 -> 3000 = 2750).
Proof.
  apply (get_coords_3000_bijective example_flongle example_minion 3000 2750); lia.
Defined.

(** ** Sizes without a grid *)

(** X2: [get_flowcell_array] has no grid for a size that is not positive,
    where [max] meets an empty list, nor for a positive size other than 126,
    512 and 3000, where the first channel is already rejected by
    [get_coords]. *)
Theorem get_flowcell_array_no_grid (F M : Z -> option (Z * Z)) (flowcell_size : Z) :
  (flowcell_size <= 0 ->
   get_flowcell_array F M flowcell_size = Raise (ValueError msg_max_empty)) /\
  (0 < flowcell_size ->
   flowcell_size <> 126 -> flowcell_size <> 512 -> flowcell_size <> 3000 ->
   get_flowcell_array F M flowcell_size = Raise (ValueError msg_size_unrecognised)).
Proof.
  split; [| apply get_flowcell_array_unrecognised].
  intros Hle. unfold get_flowcell_array, channel_coords.
  rewrite py_range_nonpos by lia. reflexivity.
Qed.

Lemma get_flowcell_array_no_grid_witness :
  get_flowcell_array example_flongle example_minion 0 = Raise (ValueError msg_max_empty) /\
  get_flowcell_array example_flongle example_minion 128
  = Raise (ValueError msg_size_unrecognised).
Proof.
  split.
  - apply (proj1 (get_flowcell_array_no_grid example_flongle example_minion 0)). lia.
  - apply (proj2 (get_flowcell_array_no_grid example_flongle example_minion 128)); lia.
Defined.

(** ** Where a channel sits in the grid *)

Lemma cell_set_cell_same (R C : nat) (b : ndarray) (r c : nat) (x : Z) :
  rect R C b -> (r < R)%nat -> (c < C)%nat -> cell (set_cell b r c x) r c = x.
Proof.
  intros Hrect Hr Hc. pose proof (rect_row R C b r Hrect Hr) as Hrow.
  unfold cell, set_cell.
  rewrite (nth_lookup _ r), list_lookup_insert_eq by (destruct Hrect as [-> _]; lia).
  cbn. rewrite nth_lookup, list_lookup_insert_eq by lia. reflexivity.
Qed.

Lemma foldM_place_cell_other (R C : nat) (coords : list (Z * Z * Z)) :
  forall b b' r c,
    rect R C b -> List.Forall (in_grid R C) coords ->
    foldM place coords b = Ok b' ->
    ~ In (r, c) (map cell_of coords) ->
    cell b' r c = cell b r c.
Proof.
  induction coords as [| e coords IH]; intros b b' r c Hrect Hin Hfold Hfresh.
  - cbn in Hfold. now injection Hfold as <-.
  - inversion Hin as [| ? ? He Hrest]; subst.
    change (foldM place (e :: coords) b)
      with (bind (place b e) (foldM place coords)) in Hfold.
    rewrite (place_in_grid R C) in Hfold by assumption. cbn [bind] in Hfold.
    assert (Hr : ((cell_of e).1 < R)%nat) by (destruct He as [_ He]; cbn; lia).
    rewrite (IH _ b' r c (rect_set_cell R C b _ _ _ Hrect Hr) Hrest Hfold)
      by (intros Hc; apply Hfresh; now right).
    apply (cell_set_cell_other R C); try assumption.
    intros Heq. apply Hfresh. left. now destruct (cell_of e).
Qed.

(** After the filling loop, the cell of every entry holds its channel. *)
Lemma foldM_place_cell (R C : nat) (coords : list (Z * Z * Z)) :
  forall b b',
    rect R C b -> List.Forall (in_grid R C) coords ->
    List.NoDup (map cell_of coords) ->
    List.Forall (fun e => cell b (cell_of e).1 (cell_of e).2 = 0) coords ->
    foldM place coords b = Ok b' ->
    forall e, In e coords -> cell b' (cell_of e).1 (cell_of e).2 = e.2.
Proof.
  induction coords as [| e0 coords IH]; intros b b' Hrect Hin Hnodup Hzero Hfold e He;
    [destruct He |].
  inversion Hin as [| ? ? He0 Hrest]; subst.
  inversion Hzero as [| ? ? Hze Hzrest]; subst.
  inversion Hnodup as [| ? ? Hfresh Hnodup']; subst.
  change (foldM place (e0 :: coords) b)
    with (bind (place b e0) (foldM place coords)) in Hfold.
  rewrite (place_in_grid R C) in Hfold by assumption. cbn [bind] in Hfold.
  rewrite Hze in Hfold. replace (0 + e0.2) with e0.2 in Hfold by lia.
  assert (Hr : ((cell_of e0).1 < R)%nat) by (destruct He0 as [_ He0]; cbn; lia).
  assert (Hc : ((cell_of e0).2 < C)%nat) by (destruct He0 as [He0 _]; cbn; lia).
  set (b1 := set_cell b (cell_of e0).1 (cell_of e0).2 e0.2) in *.
  assert (Hrect1 : rect R C b1) by now apply rect_set_cell.
  destruct He as [<- | He].
  - rewrite (foldM_place_cell_other R C coords b1 b' _ _ Hrect1 Hrest Hfold)
      by (now destruct (cell_of e0)).
    now apply (cell_set_cell_same R C).
  - apply (IH b1 b' Hrect1 Hrest Hnodup'); try assumption.
    apply List.Forall_forall. intros e' He'. unfold b1.
    rewrite (cell_set_cell_other R C); try assumption.
    + rewrite List.Forall_forall in Hzrest. now apply Hzrest.
    + intros Heq. apply Hfresh. apply in_map_iff. exists e'. split; [| assumption].
      now destruct (cell_of e0), (cell_of e').
Qed.

Lemma cell_zeros (R C r c : nat) : cell (repeat (repeat 0 C) R) r c = 0.
Proof.
  unfold cell. destruct (Nat.lt_ge_cases r R) as [Hr | Hr].
  - rewrite nth_repeat_lt by assumption. apply nth_repeat.
  - rewrite (nth_overflow (repeat (repeat 0 C) R) []) by (rewrite repeat_length; lia).
    now destruct c.
Qed.

Lemma channel_coords_NoDup (F M : Z -> option (Z * Z)) (flowcell_size : Z)
      (coords : list (Z * Z * Z)) :
  coords_wf F M flowcell_size ->
  channel_coords F M flowcell_size = Ok coords ->
  List.NoDup (map cell_of coords).
Proof.
  intros [Hnonneg Hinj] Hcoords.
  apply (Forall2_NoDup_map _ cell_of _ _ (channel_coords_spec F M _ _ Hcoords)
                           (NoDup_channels flowcell_size)).
  intros x x' e e' Hx Hx' [Hget _] [Hget' _] Hcell.
  apply in_channels in Hx, Hx'.
  destruct (Hnonneg x _ _ Hx Hget). destruct (Hnonneg x' _ _ Hx' Hget').
  apply (Hinj x x' (e.1.1, e.1.2) Hx Hx' Hget).
  rewrite Hget'. unfold cell_of in Hcell. injection Hcell as Hrow Hcol.
  do 2 f_equal; lia.
Qed.

(** X3: in the grid of [get_flowcell_array] the rows are reversed: the
    channel that [get_coords] places at (column, row) is the entry
    [arr[len(arr) - 1 - row][column]], whenever coordinates are not negative
    and no two channels share a cell. *)
Theorem get_flowcell_array_cells
        (F M : Z -> option (Z * Z)) (flowcell_size : Z) (arr : ndarray) (x col row : Z) :
  coords_wf F M flowcell_size ->
  get_flowcell_array F M flowcell_size = Ok arr ->
  1 <= x <= flowcell_size ->
  get_coords F M x flowcell_size = Ok (col, row) ->
  (Z.to_nat row < length arr)%nat /\
  nth (Z.to_nat col) (nth (length arr - 1 - Z.to_nat row) arr []) 0 = x.
Proof.
  intros Hwf Harr Hx Hget.
  destruct (get_flowcell_array_inv F M flowcell_size arr Harr (proj1 Hwf))
    as (coords & R & C & b & Hcoords & Hgrid & HR & Hfold & Hrect & ->).
  pose proof (channel_coords_spec F M _ _ Hcoords) as Hspec.
  destruct (Forall2_In_l _ _ _ x Hspec) as (e & He & Hge & Hchan); [now apply in_channels |].
  rewrite Hget in Hge. injection Hge as Hcol Hrow.
  pose proof Hgrid as Hgrid'. rewrite List.Forall_forall in Hgrid'.
  destruct (Hgrid' e He) as [_ Hrow_in].
  pose proof (proj1 Hrect) as Hlen.
  assert (Hlt : (Z.to_nat row < R)%nat) by lia.
  split; [rewrite length_rev; lia |].
  rewrite length_rev, rev_nth by lia.
  replace (length b - S (length b - 1 - Z.to_nat row))%nat with (Z.to_nat row) by lia.
  pose proof (foldM_place_cell R C coords _ b (rect_zeros R C) Hgrid
                (channel_coords_NoDup F M _ _ Hwf Hcoords)) as Hcells.
  rewrite <- Hchan, Hcol, Hrow.
  apply Hcells; try assumption.
  apply List.Forall_forall. intros e' _. apply cell_zeros.
Qed.

Lemma coords_wf_3000 (F M : Z -> option (Z * Z)) : coords_wf F M 3000.
Proof.
  split.
  - intros x col row Hx Hget. rewrite (get_coords_3000 F M x Hx) in Hget.
    injection Hget as <- <-. Z.div_mod_to_equations. lia.
  - intros x x' xy Hx Hx' Hget Hget'.
    rewrite (get_coords_3000 F M x Hx) in Hget.
    rewrite (get_coords_3000 F M x' Hx') in Hget'.
    rewrite <- Hget' in Hget. injection Hget as Hcol Hrow.
    Z.div_mod_to_equations. lia.
Qed.

Lemma get_flowcell_array_cells_witness :
  exists arr,
    get_flowcell_array example_flongle example_minion 3000 = Ok arr /\
    (0 < length arr)%nat /\ nth 10 (nth (length arr - 1 - 0) arr []) 0 = 251.
Proof.
  destruct (is_Ok_true (get_flowcell_array example_flongle example_minion 3000))
    as [arr Harr]; [vm_compute; reflexivity |].
  exists arr. split; [assumption |].
  apply (get_flowcell_array_cells example_flongle example_minion 3000 arr 251 10 0
           (coords_wf_3000 _ _) Harr); [lia | reflexivity].
Defined.

(** ** Size and number of the groups *)

Lemma length_concat_rect (R C : nat) (b : ndarray) :
  rect R C b -> length (concat b) = (R * C)%nat.
Proof.
  intros [<- Hrows]. induction Hrows as [| row b Hrow _ IH]; [reflexivity |].
  cbn [concat length]. rewrite length_app, IH, Hrow. lia.
Qed.

Lemma length_slice {A : Type} (start len : nat) (l : list A) :
  (start + len <= length l)%nat -> length (slice start len l) = len.
Proof.
  intros Hle. unfold slice. rewrite length_firstn, length_skipn. lia.
Qed.

Lemma Forall_slice {A : Type} (P : A -> Prop) (start len : nat) (l : list A) :
  List.Forall P l -> List.Forall P (slice start len l).
Proof.
  intros H. unfold slice. apply List.Forall_forall. intros x Hx.
  rewrite List.Forall_forall in H. apply H.
  rewrite <- (firstn_skipn start l). apply in_or_app. right.
  rewrite <- (firstn_skipn len (skipn start l)). apply in_or_app. now left.
Qed.

(** Every block of [np.split], flattened, has the same length: the number of
    cells divided by the number of sections. *)
Lemma np_split_lengths (R C : nat) (arr : ndarray) (sections : Z) (axis : value)
      (blocks : list ndarray) :
  rect R C arr -> (0 < R)%nat ->
  np_split arr sections axis = Ok blocks ->
  0 < sections /\
  List.Forall (fun block => (length (concat block) * Z.to_nat sections)%nat = (R * C)%nat)
              blocks.
Proof.
  intros Hrect HR Hsplit. unfold np_split in Hsplit.
  destruct axis as [| ax | | | | |]; try discriminate.
  rewrite (rect_shape R C arr Hrect HR) in Hsplit. cbn [fst snd] in Hsplit.
  destruct ((ax =? 0) || (ax =? -2)) eqn:Hrows; run_bind in Hsplit;
    [| destruct ((ax =? 1) || (ax =? -1)) eqn:Hcols; run_bind in Hsplit; [| discriminate]].
  - destruct (sections =? 0) eqn:Hz; [discriminate |].
    destruct (Z.of_nat R mod sections =? 0) eqn:Hmod; [| discriminate].
    destruct (sections <? 0) eqn:Hneg; [discriminate |]. cbv beta iota in Hsplit.
    injection Hsplit as <-.
    apply Z.eqb_eq in Hmod. apply Z.ltb_ge in Hneg. apply Z.eqb_neq in Hz.
    split; [lia |].
    pose proof (Z.div_mod (Z.of_nat R) sections Hz) as Hdiv. rewrite Hmod in Hdiv.
    set (each := Z.to_nat (Z.of_nat R / sections)) in *.
    assert (Heach : R = (Z.to_nat sections * each)%nat) by (unfold each; nia).
    apply List.Forall_forall. intros block Hblock.
    apply in_map_iff in Hblock. destruct Hblock as (i & <- & Hi). apply in_seq in Hi.
    rewrite (length_concat_rect each C).
    + nia.
    + destruct Hrect as [Hlen Hlens]. split.
      * apply length_slice. nia.
      * now apply Forall_slice.
  - destruct (sections =? 0) eqn:Hz; [discriminate |].
    destruct (Z.of_nat C mod sections =? 0) eqn:Hmod; [| discriminate].
    destruct (sections <? 0) eqn:Hneg; [discriminate |]. cbv beta iota in Hsplit.
    injection Hsplit as <-.
    apply Z.eqb_eq in Hmod. apply Z.ltb_ge in Hneg. apply Z.eqb_neq in Hz.
    split; [lia |].
    pose proof (Z.div_mod (Z.of_nat C) sections Hz) as Hdiv. rewrite Hmod in Hdiv.
    set (each := Z.to_nat (Z.of_nat C / sections)) in *.
    assert (Heach : C = (Z.to_nat sections * each)%nat) by (unfold each; nia).
    apply List.Forall_forall. intros block Hblock.
    apply in_map_iff in Hblock. destruct Hblock as (i & <- & Hi). apply in_seq in Hi.
    rewrite (length_concat_rect R each).
    + nia.
    + destruct Hrect as [Hlen Hlens]. split; [now rewrite length_map |].
      apply List.Forall_forall. intros row Hrow. apply in_map_iff in Hrow.
      destruct Hrow as (row0 & <- & Hrow0).
      rewrite List.Forall_forall in Hlens. apply length_slice.
      rewrite (Hlens row0 Hrow0). nia.
Qed.

(** X4: the groups of a successful [generate_flowcell] by [split] and [axis]
    are [split] many and all of one size: the cells of the grid, rows times
    columns, divided by [split]. *)
Theorem generate_flowcell_equal_groups
        (F M : Z -> option (Z * Z)) (flowcell_size split : Z) (axis : value)
        (groups : list (list Z)) :
  coords_wf F M flowcell_size ->
  generate_flowcell F M flowcell_size split axis false = Ok groups ->
  exists arr,
    get_flowcell_array F M flowcell_size = Ok arr /\
    0 < split /\ Z.of_nat (length groups) = split /\
    forall g, In g groups ->
      Z.of_nat (length g) * split = fst (shape arr) * snd (shape arr).
Proof.
  intros Hwf Hgen.
  destruct (generate_flowcell_occurrences F M _ _ _ _ Hwf Hgen) as [Hlen _].
  unfold generate_flowcell in Hgen.
  destruct (get_flowcell_array F M flowcell_size) as [arr | err] eqn:Harr;
    run_bind in Hgen; [| discriminate].
  destruct (split <=? 0) eqn:Hpos; [discriminate |]. apply Z.leb_gt in Hpos.
  destruct (np_split arr split axis) as [blocks | err] eqn:Hsplit;
    [| destruct err; discriminate].
  run_bind in Hgen. injection Hgen as <-.
  destruct (get_flowcell_array_occurrences F M _ _ Hwf Harr) as (R & C & Hrect & HR & _).
  destruct (np_split_lengths R C arr split axis blocks Hrect HR Hsplit) as [_ Hlens].
  exists arr. split; [reflexivity |]. split; [assumption |]. split; [lia |].
  intros g Hg. apply in_map_iff in Hg. destruct Hg as (block & <- & Hblock).
  rewrite List.Forall_forall in Hlens. specialize (Hlens block Hblock).
  rewrite (rect_shape R C arr Hrect HR). cbn [fst snd]. nia.
Qed.

Lemma generate_flowcell_equal_groups_witness :
  exists groups,
    generate_flowcell example_flongle example_minion 3000 4 (VInt 1) false = Ok groups /\
    Z.of_nat (length groups) = 4 /\
    forall g, In g groups -> Z.of_nat (length g) = 750.
Proof.
  destruct (is_Ok_true (generate_flowcell example_flongle example_minion 3000 4 (VInt 1) false))
    as [groups Hgroups]; [vm_compute; reflexivity |].
  exists groups. split; [assumption |].
  destruct (generate_flowcell_equal_groups example_flongle example_minion 3000 4 (VInt 1)
              groups (coords_wf_3000 _ _) Hgroups) as (arr & Harr & _ & Hlen & Hsize).
  split; [assumption |]. intros g Hg. specialize (Hsize g Hg).
  assert (Hshape : match get_flowcell_array example_flongle example_minion 3000 with
                   | Ok a => shape a
                   | Raise _ => (25, 120)
                   end = (25, 120)) by (vm_compute; reflexivity).
  rewrite Harr in Hshape. rewrite Hshape in Hsize. cbn [fst snd] in Hsize. lia.
Defined.

Lemma grid_3000 (F M : Z -> option (Z * Z)) :
  exists arr, get_flowcell_array F M 3000 = Ok arr /\ shape arr = (25, 120).
Proof.
  destruct (is_Ok_true (get_flowcell_array F M 3000)) as [arr Harr];
    [vm_compute; reflexivity |].
  exists arr. split; [assumption |].
  assert (Hshape : match get_flowcell_array F M 3000 with
                   | Ok a => shape a
                   | Raise _ => (25, 120)
                   end = (25, 120)) by (vm_compute; reflexivity).
  now rewrite Harr in Hshape.
Qed.

Lemma np_split_divisible (arr : ndarray) (sections ax n : Z) :
  0 < sections ->
  n = (if (ax =? 0) || (ax =? -2) then fst (shape arr) else snd (shape arr)) ->
  (ax =? 0) || (ax =? -2) || (ax =? 1) || (ax =? -1) = true ->
  (n mod sections = 0 -> exists blocks, np_split arr sections (VInt ax) = Ok blocks) /\
  (n mod sections <> 0 ->
   np_split arr sections (VInt ax) = Raise (ValueError msg_unequal_division)).
Proof.
  intros Hpos Hn Hax. unfold np_split.
  assert (Hz : (sections =? 0) = false) by (apply Z.eqb_neq; lia).
  assert (Hneg : (sections <? 0) = false) by (apply Z.ltb_ge; lia).
  destruct ((ax =? 0) || (ax =? -2)) eqn:Hrows; run_bind.
  - rewrite Hz, <- Hn, Hneg. split; intros Hmod.
    + rewrite Hmod. cbn [Z.eqb negb]. eexists. reflexivity.
    + apply Z.eqb_neq in Hmod. now rewrite Hmod.
  - cbn [orb] in Hax. rewrite Hax. run_bind.
    rewrite Hz, <- Hn, Hneg. split; intros Hmod.
    + rewrite Hmod. cbn [Z.eqb negb]. eexists. reflexivity.
    + apply Z.eqb_neq in Hmod. now rewrite Hmod.
Qed.

(** X5: on 3000 channels the grid has 25 rows and 120 columns, and
    [generate_flowcell] with a positive [split] succeeds exactly when [split]
    divides 25 for [axis] 0 (or -2) and 120 for [axis] 1 (or -1); otherwise
    it raises "The flowcell cannot be split evenly". *)
Theorem generate_flowcell_3000_divisors
        (F M : Z -> option (Z * Z)) (split ax : Z) :
  0 < split ->
  (ax = 0 \/ ax = -2 ->
   (25 mod split = 0 ->
    exists groups, generate_flowcell F M 3000 split (VInt ax) false = Ok groups) /\
   (25 mod split <> 0 ->
    generate_flowcell F M 3000 split (VInt ax) false = Raise (ValueError msg_split_uneven))) /\
  (ax = 1 \/ ax = -1 ->
   (120 mod split = 0 ->
    exists groups, generate_flowcell F M 3000 split (VInt ax) false = Ok groups) /\
   (120 mod split <> 0 ->
    generate_flowcell F M 3000 split (VInt ax) false = Raise (ValueError msg_split_uneven))).
Proof.
  intros Hpos. destruct (grid_3000 F M) as (arr & Harr & Hshape).
  assert (Hguard : (split <=? 0) = false) by (apply Z.leb_gt; lia).
  assert (Hgen : generate_flowcell F M 3000 split (VInt ax) false
                 = (blocks ← match np_split arr split (VInt ax) with
                             | Raise (ValueError _) => Raise (ValueError msg_split_uneven)
                             | r => r
                             end;
                    Ok (map (fun block : ndarray => concat block) blocks))).
  { unfold generate_flowcell. rewrite Harr. run_bind. now rewrite Hguard. }
  rewrite Hgen. clear Hgen.
  split; intros Hax.
  - destruct (np_split_divisible arr split ax 25 Hpos) as [Hdiv Hndiv].
    + rewrite Hshape. destruct Hax as [-> | ->]; reflexivity.
    + destruct Hax as [-> | ->]; reflexivity.
    + split; intros Hmod.
      * destruct (Hdiv Hmod) as [blocks ->]. run_bind. eexists. reflexivity.
      * now rewrite (Hndiv Hmod).
  - destruct (np_split_divisible arr split ax 120 Hpos) as [Hdiv Hndiv].
    + rewrite Hshape. destruct Hax as [-> | ->]; reflexivity.
    + destruct Hax as [-> | ->]; reflexivity.
    + split; intros Hmod.
      * destruct (Hdiv Hmod) as [blocks ->]. run_bind. eexists. reflexivity.
      * now rewrite (Hndiv Hmod).
Qed.

Lemma generate_flowcell_3000_divisors_witness :
  (exists groups,
     generate_flowcell example_flongle example_minion 3000 5 (VInt 0) false = Ok groups) /\
  generate_flowcell example_flongle example_minion 3000 7 (VInt 1) false
  = Raise (ValueError msg_split_uneven).
Proof.
  split.
  - apply (proj1 (generate_flowcell_3000_divisors example_flongle example_minion 5 0
                    ltac:(lia))); [now left | reflexivity].
  - apply (proj2 (generate_flowcell_3000_divisors example_flongle example_minion 7 1
                    ltac:(lia))); [now left | discriminate].
Defined.

(** ** What the groups hold besides the channels *)

Lemma occurrences_zeros (R C : nat) :
  occurrences 0 (concat (repeat (repeat 0 C) R)) = (R * C)%nat.
Proof.
  assert (Hrow : occurrences 0 (repeat 0 C) = C).
  { unfold occurrences. induction C as [| C IH]; [reflexivity |].
    cbn [repeat count_occ]. destruct (Z.eq_dec 0 0); [now rewrite IH | congruence]. }
  induction R as [| R IH]; [reflexivity |].
  cbn [repeat concat]. rewrite occurrences_app, IH, Hrow. lia.
Qed.

(** Every entry with a non-zero channel takes the place of one zero. *)
Lemma foldM_place_zeros (R C : nat) (coords : list (Z * Z * Z)) :
  forall b b',
    rect R C b -> List.Forall (in_grid R C) coords ->
    List.NoDup (map cell_of coords) ->
    List.Forall (fun e => cell b (cell_of e).1 (cell_of e).2 = 0) coords ->
    List.Forall (fun e => e.2 <> 0) coords ->
    foldM place coords b = Ok b' ->
    (occurrences 0 (concat b') + length coords)%nat = occurrences 0 (concat b).
Proof.
  induction coords as [| e coords IH]; intros b b' Hrect Hin Hnodup Hzero Hchan Hfold.
  - cbn in Hfold. injection Hfold as <-. cbn. lia.
  - inversion Hin as [| ? ? He Hrest]; subst.
    inversion Hzero as [| ? ? Hze Hzrest]; subst.
    inversion Hnodup as [| ? ? Hfresh Hnodup']; subst.
    inversion Hchan as [| ? ? Hne Hchan']; subst.
    change (foldM place (e :: coords) b)
      with (bind (place b e) (foldM place coords)) in Hfold.
    rewrite (place_in_grid R C) in Hfold by assumption. cbn [bind] in Hfold.
    assert (Hr : ((cell_of e).1 < R)%nat) by (destruct He as [_ He]; cbn; lia).
    assert (Hc : ((cell_of e).2 < C)%nat) by (destruct He as [He _]; cbn; lia).
    rewrite Hze in Hfold. replace (0 + e.2) with e.2 in Hfold by lia.
    set (b1 := set_cell b (cell_of e).1 (cell_of e).2 e.2) in *.
    assert (Hrect1 : rect R C b1) by now apply rect_set_cell.
    assert (Hzero1 : List.Forall (fun e' => cell b1 (cell_of e').1 (cell_of e').2 = 0) coords).
    { apply List.Forall_forall. intros e' He'. unfold b1.
      rewrite (cell_set_cell_other R C); try assumption.
      - rewrite List.Forall_forall in Hzrest. now apply Hzrest.
      - intros Heq. apply Hfresh. apply in_map_iff. exists e'. split; [| assumption].
        now destruct (cell_of e), (cell_of e'). }
    pose proof (IH b1 b' Hrect1 Hrest Hnodup' Hzero1 Hchan' Hfold) as Hrec.
    pose proof (occurrences_set_cell R C b _ _ e.2 0 Hrect Hr Hc) as Hset.
    fold b1 in Hset. rewrite Hze in Hset.
    assert (occurrences 0 [0] = 1%nat) as H1 by reflexivity.
    assert (occurrences 0 [e.2] = 0%nat) as H0.
    { unfold occurrences. apply count_occ_not_In. intros [H | []]. congruence. }
    cbn [length]. lia.
Qed.

(** The grid holds the channels once each, and zero everywhere else. *)
Lemma get_flowcell_array_counts
      (F M : Z -> option (Z * Z)) (flowcell_size : Z) (arr : ndarray) :
  coords_wf F M flowcell_size ->
  get_flowcell_array F M flowcell_size = Ok arr ->
  exists R C, rect R C arr /\ (0 < R)%nat /\
    (forall v, v <> 0 -> occurrences v (concat arr) = occurrences v (channels flowcell_size)) /\
    (occurrences 0 (concat arr) + Z.to_nat flowcell_size)%nat = (R * C)%nat.
Proof.
  intros Hwf Harr.
  destruct (get_flowcell_array_inv F M flowcell_size arr Harr (proj1 Hwf))
    as (coords & R & C & b & Hcoords & Hgrid & HR & Hfold & Hrect & ->).
  pose proof (channel_coords_NoDup F M _ _ Hwf Hcoords) as Hnodup.
  pose proof (channel_coords_channels F M _ _ Hcoords) as Hchans.
  assert (Hzero : List.Forall (fun e => cell (repeat (repeat 0 C) R)
                                             (cell_of e).1 (cell_of e).2 = 0) coords)
    by (apply List.Forall_forall; intros e _; apply cell_zeros).
  exists R, C. split; [now apply rect_rev |]. split; [assumption |]. split.
  - intros v Hv. rewrite occurrences_concat_rev.
    rewrite (foldM_place_occurrences R C coords _ b (rect_zeros R C) Hgrid Hnodup Hzero
                                     Hfold v Hv), Hchans.
    replace (occurrences v (concat (repeat (repeat 0 C) R))) with 0%nat; [reflexivity |].
    symmetry. apply count_occ_not_In. intros Hin. apply in_concat in Hin.
    destruct Hin as (row & Hrow & Hin). apply repeat_spec in Hrow. subst row.
    apply repeat_spec in Hin. lia.
  - rewrite occurrences_concat_rev, <- (occurrences_zeros R C).
    rewrite <- (foldM_place_zeros R C coords _ b (rect_zeros R C) Hgrid Hnodup Hzero);
      [| | assumption].
    + f_equal. rewrite <- (length_map snd coords), Hchans.
      unfold channels. now rewrite length_map, length_seq.
    + apply List.Forall_forall. intros e He.
      assert (Hin : In e.2 (channels flowcell_size)) by (rewrite <- Hchans; now apply in_map).
      apply in_channels in Hin. lia.
Qed.

Lemma odd_even_occurrences
      (F M : Z -> option (Z * Z)) (flowcell_size split : Z) (axis : value)
      (groups : list (list Z)) (v : Z) :
  generate_flowcell F M flowcell_size split axis true = Ok groups ->
  occurrences v (concat groups) = occurrences v (channels flowcell_size).
Proof.
  rewrite odd_even_groups. intros [= <-].
  cbn [concat]. rewrite app_nil_r, occurrences_app. apply occurrences_filter_odd_even.
Qed.

(** When the grid has exactly as many cells as there are channels, the
    groups are a rearrangement of the channels. *)
Lemma full_grid_permutation
      (F M : Z -> option (Z * Z)) (flowcell_size split : Z) (axis : value) (odd_even : bool)
      (arr : ndarray) (groups : list (list Z)) :
  coords_wf F M flowcell_size ->
  get_flowcell_array F M flowcell_size = Ok arr ->
  fst (shape arr) * snd (shape arr) = flowcell_size ->
  generate_flowcell F M flowcell_size split axis odd_even = Ok groups ->
  Permutation (concat groups) (channels flowcell_size).
Proof.
  intros Hwf Harr Hcells Hgen. apply (Permutation_count_occ Z.eq_dec). intros v.
  change (occurrences v (concat groups) = occurrences v (channels flowcell_size)).
  destruct odd_even; [now apply (odd_even_occurrences F M flowcell_size split axis) |].
  unfold generate_flowcell in Hgen. rewrite Harr in Hgen. run_bind in Hgen.
  destruct (split <=? 0); [discriminate |].
  destruct (np_split arr split axis) as [blocks | err] eqn:Hsplit;
    [| destruct err; discriminate].
  run_bind in Hgen. injection Hgen as <-.
  destruct (get_flowcell_array_counts F M flowcell_size arr Hwf Harr)
    as (R & C & Hrect & HR & Hnonzero & Hzeros).
  destruct (np_split_spec R C arr split axis blocks Hrect HR Hsplit) as [_ Hsame].
  rewrite Hsame. destruct (Z.eq_dec v 0) as [-> | Hv]; [| now apply Hnonzero].
  rewrite (rect_shape R C arr Hrect HR) in Hcells. cbn [fst snd] in Hcells.
  replace (occurrences 0 (channels flowcell_size)) with 0%nat.
  - nia.
  - symmetry. apply count_occ_not_In. intros Hin. apply in_channels in Hin. lia.
Qed.

(** X6: on 3000 channels every group list of [generate_flowcell] is a
    rearrangement of the channels 1..3000: nothing is left out, repeated or
    added, whatever [split], [axis] and [odd_even]. *)
Theorem generate_flowcell_3000_permutation
        (F M : Z -> option (Z * Z)) (split : Z) (axis : value) (odd_even : bool)
        (groups : list (list Z)) :
  generate_flowcell F M 3000 split axis odd_even = Ok groups ->
  Permutation (concat groups) (channels 3000).
Proof.
  destruct (grid_3000 F M) as (arr & Harr & Hshape).
  apply (full_grid_permutation F M 3000 split axis odd_even arr groups
           (coords_wf_3000 F M) Harr).
  rewrite Hshape. reflexivity.
Qed.

Lemma generate_flowcell_3000_permutation_witness :
  exists groups,
    generate_flowcell example_flongle example_minion 3000 3 (VInt 1) false = Ok groups /\
    Permutation (concat groups) (channels 3000).
Proof.
  destruct (is_Ok_true (generate_flowcell example_flongle example_minion 3000 3 (VInt 1) false))
    as [groups Hgroups]; [vm_compute; reflexivity |].
  exists groups. split; [assumption |].
  exact (generate_flowcell_3000_permutation _ _ _ _ _ _ Hgroups).
Defined.

Lemma get_flowcell_array_positive (F M : Z -> option (Z * Z)) (flowcell_size : Z)
      (arr : ndarray) :
  get_flowcell_array F M flowcell_size = Ok arr -> 0 < flowcell_size.
Proof.
  intros Harr. destruct (Z.le_gt_cases flowcell_size 0) as [Hle | Hgt]; [| lia].
  unfold get_flowcell_array, channel_coords in Harr.
  rewrite py_range_nonpos in Harr by lia. discriminate.
Qed.

Lemma generate_flowcell_zero_count
        (F M : Z -> option (Z * Z)) (flowcell_size split : Z) (axis : value)
        (groups : list (list Z)) :
  coords_wf F M flowcell_size ->
  generate_flowcell F M flowcell_size split axis false = Ok groups ->
  exists arr,
    get_flowcell_array F M flowcell_size = Ok arr /\
    Z.of_nat (occurrences 0 (concat groups)) + flowcell_size
    = fst (shape arr) * snd (shape arr).
Proof.
  intros Hwf Hgen. unfold generate_flowcell in Hgen.
  destruct (get_flowcell_array F M flowcell_size) as [arr | err] eqn:Harr;
    run_bind in Hgen; [| discriminate].
  destruct (split <=? 0); [discriminate |].
  destruct (np_split arr split axis) as [blocks | err] eqn:Hsplit;
    [| destruct err; discriminate].
  run_bind in Hgen. injection Hgen as <-.
  destruct (get_flowcell_array_counts F M flowcell_size arr Hwf Harr)
    as (R & C & Hrect & HR & _ & Hzeros).
  destruct (np_split_spec R C arr split axis blocks Hrect HR Hsplit) as [_ Hsame].
  pose proof (get_flowcell_array_positive F M _ _ Harr) as Hpos.
  exists arr. split; [reflexivity |].
  rewrite Hsame, (rect_shape R C arr Hrect HR). cbn [fst snd]. nia.
Qed.

(** X7: the groups of [generate_flowcell] hold, besides the channels, one
    placeholder 0 for every cell of the grid that no channel occupies: the
    number of zeros is rows times columns minus the number of channels. *)
Theorem generate_flowcell_placeholders
        (F M : Z -> option (Z * Z)) (flowcell_size split : Z) (axis : value)
        (groups : list (list Z)) :
  coords_wf F M flowcell_size ->
  generate_flowcell F M flowcell_size split axis false = Ok groups ->
  exists arr,
    get_flowcell_array F M flowcell_size = Ok arr /\
    Z.of_nat (occurrences 0 (concat groups)) + flowcell_size
    = fst (shape arr) * snd (shape arr).
Proof. apply generate_flowcell_zero_count. Qed.

Lemma coords_wf_flongle (F M : Z -> option (Z * Z)) :
  layout_wf F 126 -> coords_wf F M 126.
Proof.
  intros [HF1 HF2]. split.
  - intros x col row Hx Hget.
    rewrite (proj1 (get_coords_table F M x) Hx) in Hget.
    apply table_lookup_Ok in Hget. eauto.
  - intros x x' xy Hx Hx' Hget Hget'.
    rewrite (proj1 (get_coords_table F M x) Hx) in Hget.
    rewrite (proj1 (get_coords_table F M x') Hx') in Hget'.
    apply table_lookup_Ok in Hget, Hget'. eauto.
Qed.

Lemma generate_flowcell_placeholders_witness :
  exists groups,
    generate_flowcell example_flongle example_minion 126 2 (VInt 0) false = Ok groups /\
    occurrences 0 (concat groups) = 4%nat.
Proof.
  destruct (is_Ok_true (generate_flowcell example_flongle example_minion 126 2 (VInt 0) false))
    as [groups Hgroups]; [vm_compute; reflexivity |].
  exists groups. split; [assumption |].
  destruct (generate_flowcell_placeholders example_flongle example_minion 126 2 (VInt 0)
              groups (coords_wf_flongle _ _ example_flongle_wf) Hgroups)
    as (arr & Harr & Hzeros).
  assert (Hshape : match get_flowcell_array example_flongle example_minion 126 with
                   | Ok a => shape a
                   | Raise _ => (10, 13)
                   end = (10, 13)) by (vm_compute; reflexivity).
  rewrite Harr in Hshape. rewrite Hshape in Hzeros. cbn [fst snd] in Hzeros. lia.
Defined.

(** ** Keys and values of the run information *)

Lemma assign_is_Some (pairs : list (list Z * namedtuple)) (k : nat) (ri : gmap Z nat) (c : Z) :
  is_Some (ri !! c) \/ (exists p, In p pairs /\ In c p.1) ->
  is_Some (fold_left assign (combine (seq k (length pairs)) pairs) ri !! c).
Proof.
  revert k ri. induction pairs as [| [g cond] pairs IH]; intros k ri Hc.
  - destruct Hc as [Hc | (p & [] & _)]. exact Hc.
  - cbn [length seq combine fold_left]. apply IH. cbn [assign].
    destruct (in_dec Z.eq_dec c g) as [Hin | Hnotin].
    + left. rewrite fill_lookup_in by assumption. eauto.
    + rewrite fill_lookup_notin by assumption.
      destruct Hc as [Hc | (p & [<- | Hp] & Hcp)]; [now left | contradiction |].
      right. eauto.
Qed.

Lemma assign_lookup_inv (pairs : list (list Z * namedtuple)) (k : nat) (ri : gmap Z nat)
      (c : Z) (i : nat) :
  fold_left assign (combine (seq k (length pairs)) pairs) ri !! c = Some i ->
  ri !! c = Some i \/
  exists j p, pairs !! j = Some p /\ i = (k + j)%nat /\ In c p.1.
Proof.
  revert k ri. induction pairs as [| [g cond] pairs IH]; intros k ri Hlook; [now left |].
  cbn [length seq combine fold_left] in Hlook.
  destruct (IH (S k) _ Hlook) as [Hhead | (j & p & Hj & -> & Hin)].
  - cbn [assign] in Hhead. destruct (in_dec Z.eq_dec c g) as [Hin | Hnotin].
    + rewrite fill_lookup_in in Hhead by assumption. injection Hhead as <-.
      right. exists 0%nat, (g, cond). split; [reflexivity |]. split; [lia | assumption].
    + rewrite fill_lookup_notin in Hhead by assumption. now left.
  - right. exists (S j), p. split; [exact Hj |]. split; [lia | assumption].
Qed.

Lemma combine_In_l {A B : Type} (l1 : list A) (l2 : list B) (a : A) :
  length l1 = length l2 -> In a l1 -> exists b, In (a, b) (combine l1 l2).
Proof.
  revert l2. induction l1 as [| x l1 IH]; intros [| y l2] Hlen Hin;
    try discriminate; [destruct Hin |].
  destruct Hin as [-> | Hin].
  - exists y. now left.
  - destruct (IH l2 ltac:(cbn in Hlen; lia) Hin) as [b Hb]. exists b. now right.
Qed.

Section RunInfoKeys.

Variable F M : Z -> option (Z * Z).
Variable file_lines : string -> option (list string).
Variable random : nat -> Q.

(** X8: [run_info] maps a key to the index of a group that holds it, and
    that index is the index of a condition record: the keys are exactly the
    numbers found in the groups, each mapped below the number of records. *)
Theorem get_run_info_keys
        (toml_dict store' : dict) (num_channels : Z) (run_info : gmap Z nat)
        (split_conditions : list namedtuple) (reference : option value) :
  get_run_info F M file_lines random toml_dict num_channels
  = (Ok (run_info, split_conditions, reference), store') ->
  exists conds groups,
    dict_get "conditions" toml_dict = Some (VDict conds) /\
    generate_flowcell F M num_channels (Z.of_nat (length (condition_keys conds)))
                      (default (VInt 1) (dict_get "axis" conds)) false = Ok groups /\
    (forall c i, run_info !! c = Some i ->
       (i < length split_conditions)%nat /\
       exists g, groups !! i = Some g /\ In c g) /\
    (forall c g, In g groups -> In c g -> is_Some (run_info !! c)).
Proof.
  intros Hrun.
  destruct (get_run_info_Ok F M file_lines random _ _ _ _ _ _ Hrun)
    as (conds & groups & conds' & Hconds & Hgen & _ & _ & Hlen & -> & _).
  exists conds, groups. split; [assumption |]. split; [assumption |].
  assert (Hgroups : length groups = length split_conditions).
  { unfold generate_flowcell in Hgen.
    destruct (get_flowcell_array F M num_channels) as [arr | err];
      run_bind in Hgen; [| discriminate].
    destruct (Z.of_nat (length (condition_keys conds)) <=? 0); [discriminate |].
    unfold np_split in Hgen.
    destruct (default (VInt 1) (dict_get "axis" conds)) as [| ax | | | | |];
      try discriminate.
    destruct ((ax =? 0) || (ax =? -2)); run_bind in Hgen;
      [| destruct ((ax =? 1) || (ax =? -1)); run_bind in Hgen; [| discriminate]];
      (destruct (Z.of_nat (length (condition_keys conds)) =? 0); [discriminate |]);
      (destruct (negb _); [discriminate |]);
      (destruct (Z.of_nat (length (condition_keys conds)) <? 0); [discriminate |]);
      run_bind in Hgen; injection Hgen as <-;
      rewrite !length_map, length_seq; lia. }
  rewrite build_run_info_assign. unfold enumerate. split.
  - intros c i Hlook.
    destruct (assign_lookup_inv _ 0 ∅ c i Hlook) as [Hempty | (j & p & Hj & -> & Hin)];
      [rewrite lookup_empty in Hempty; discriminate |].
    cbn [Nat.add]. split.
    + apply lookup_lt_Some in Hj. rewrite length_combine in Hj. lia.
    + exists p.1. split; [| assumption]. now apply combine_lookup_fst with split_conditions.
  - intros c g Hg Hc. apply assign_is_Some. right.
    destruct (combine_In_l groups split_conditions g Hgroups Hg) as [cond Hpair].
    exists (g, cond). split; assumption.
Qed.

End RunInfoKeys.

Lemma get_run_info_keys_witness :
  exists run_info split_conditions,
    example_call.1 = Ok (run_info, split_conditions, None) /\
    is_Some (run_info !! 3000) /\
    forall c i, run_info !! c = Some i -> (i < length split_conditions)%nat.
Proof.
  destruct (is_Ok_true example_call.1) as [[[ri sc] ref] Hcall]; [vm_compute; reflexivity |].
  assert (Href : match example_call.1 with
                 | Ok (_, _, None) => true
                 | _ => false
                 end = true) by (vm_compute; reflexivity).
  rewrite Hcall in Href. destruct ref as [ref |]; [discriminate |].
  pose proof example_call_eq as Hrun. rewrite Hcall in Hrun.
  destruct (get_run_info_keys _ _ _ _ _ _ _ _ _ _ Hrun)
    as (conds & groups & _ & Hgen & Hvalues & Hkeys).
  exists ri, sc. split; [exact Hcall |]. split.
  - destruct (generate_flowcell_occurrences _ _ _ _ _ _ (coords_wf_3000 _ _) Hgen)
      as [_ Hocc].
    specialize (Hocc 3000 ltac:(lia)).
    assert (Hin : In 3000 (concat groups)).
    { apply (count_occ_In Z.eq_dec). unfold occurrences in Hocc. lia. }
    apply in_concat in Hin. destruct Hin as (g & Hg & Hc). exact (Hkeys 3000 g Hg Hc).
  - intros c i Hlook. exact (proj1 (Hvalues c i Hlook)).
Defined.

Lemma example_call_flongle_eq :
  get_run_info example_flongle example_minion no_files constant_random example_config_rows 126
  = (example_call_flongle.1, example_call_flongle.2).
Proof. unfold example_call_flongle. apply surjective_pairing. Qed.

(** X9: on a Flongle, whose 126 channels lie on a grid of 10 rows by 13
    columns, the four unoccupied cells reach the run information: a
    successful [get_run_info] has an entry for the channel number 0. *)
Theorem get_run_info_flongle_zero
        (F M : Z -> option (Z * Z)) (file_lines : string -> option (list string))
        (random : nat -> Q) (toml_dict store' : dict) (run_info : gmap Z nat)
        (split_conditions : list namedtuple) (reference : option value) :
  layout_wf F 126 -> layout_extent F 126 10 13 ->
  get_run_info F M file_lines random toml_dict 126
  = (Ok (run_info, split_conditions, reference), store') ->
  is_Some (run_info !! 0).
Proof.
  intros Hwf Hextent Hrun.
  destruct (get_run_info_Ok F M file_lines random _ _ _ _ _ _ Hrun)
    as (conds & groups & conds' & _ & Hgen & _ & _ & Hlen & -> & _).
  pose proof (coords_wf_flongle F M Hwf) as Hcwf.
  destruct (generate_flowcell_occurrences F M _ _ _ _ Hcwf Hgen) as [Hgroups _].
  destruct (generate_flowcell_zero_count F M _ _ _ _ Hcwf Hgen) as (arr & Harr & Hzeros).
  destruct (table_grid_shape F M F 126 10 13) as (arr' & Harr' & Hshape);
    [intros x; apply get_coords_table | lia | exact Hextent |].
  rewrite Harr in Harr'. injection Harr' as <-.
  rewrite Hshape in Hzeros. cbn [fst snd] in Hzeros.
  assert (Hin : In 0 (concat groups)).
  { apply (count_occ_In Z.eq_dec). unfold occurrences in Hzeros. lia. }
  apply in_concat in Hin. destruct Hin as (g & Hg & Hc).
  rewrite build_run_info_assign. unfold enumerate. apply assign_is_Some. right.
  destruct (combine_In_l groups split_conditions g) as [cond Hpair];
    [rewrite Hgroups, Hlen; lia | assumption |].
  exists (g, cond). split; assumption.
Qed.

Lemma get_run_info_flongle_zero_witness :
  exists run_info split_conditions reference,
    example_call_flongle.1 = Ok (run_info, split_conditions, reference) /\
    is_Some (run_info !! 0).
Proof.
  destruct (is_Ok_true example_call_flongle.1) as [[[ri sc] ref] Hcall];
    [vm_compute; reflexivity |].
  pose proof example_call_flongle_eq as Hrun. rewrite Hcall in Hrun.
  exists ri, sc, ref. split; [exact Hcall |].
  exact (get_run_info_flongle_zero _ _ _ _ _ _ _ _ _
           example_flongle_wf example_flongle_extent Hrun).
Defined.

(** ** Interval membership *)

Lemma bound_ltb_leb (a b : bound) : bound_ltb a b = negb (bound_leb b a).
Proof.
  destruct a as [x |], b as [y |]; cbn; try reflexivity.
  destruct (Z.ltb_spec x y), (Z.leb_spec y x); cbn; (reflexivity || lia).
Qed.

Lemma bound_leb_refl (a : bound) : bound_leb a a = true.
Proof. destruct a; cbn; [apply Z.leb_refl | reflexivity]. Qed.

Lemma bound_leb_trans (a b c : bound) :
  bound_leb a b = true -> bound_leb b c = true -> bound_leb a c = true.
Proof.
  destruct a, b, c; cbn; try congruence.
  rewrite !Z.leb_le. lia.
Qed.

Lemma bound_leb_total (a b : bound) : bound_leb a b = false -> bound_leb b a = true.
Proof.
  destruct a, b; cbn; try congruence.
  rewrite Z.leb_gt, Z.leb_le. lia.
Qed.

(** [min] returns an element that no element is below. *)
Lemma bound_min_spec (x : bound) (xs : list bound) :
  In (bound_min x xs) (x :: xs) /\
  forall y, In y (x :: xs) -> bound_leb (bound_min x xs) y = true.
Proof.
  unfold bound_min. revert x. induction xs as [| z xs IH]; intros x.
  - cbn. split; [now left |]. intros y [<- | []]. apply bound_leb_refl.
  - cbn [fold_left]. destruct (IH (if bound_ltb z x then z else x)) as [Hin Hle]. split.
    + destruct Hin as [Hin | Hin]; [| now right; right].
      rewrite <- Hin. destruct (bound_ltb z x); [right; now left | now left].
    + intros y Hy.
      assert (Hhead : bound_leb (fold_left (fun best y0 => if bound_ltb y0 best then y0 else best)
                                           xs (if bound_ltb z x then z else x))
                                (if bound_ltb z x then z else x) = true)
        by (apply Hle; now left).
      rewrite bound_ltb_leb in *.
      destruct Hy as [Hy | [Hy | Hy]]; [subst y | subst y | apply Hle; now right].
      * destruct (bound_leb x z) eqn:Hxz; cbn [negb] in *; [assumption |].
        eapply bound_leb_trans; [exact Hhead |]. now apply bound_leb_total.
      * destruct (bound_leb x z) eqn:Hxz; cbn [negb] in *; [| assumption].
        eapply bound_leb_trans; eassumption.
Qed.

(** [max] returns an element that no element is above. *)
Lemma bound_max_spec (x : bound) (xs : list bound) :
  In (bound_max x xs) (x :: xs) /\
  forall y, In y (x :: xs) -> bound_leb y (bound_max x xs) = true.
Proof.
  unfold bound_max. revert x. induction xs as [| z xs IH]; intros x.
  - cbn. split; [now left |]. intros y [<- | []]. apply bound_leb_refl.
  - cbn [fold_left]. destruct (IH (if bound_ltb x z then z else x)) as [Hin Hle]. split.
    + destruct Hin as [Hin | Hin]; [| now right; right].
      rewrite <- Hin. destruct (bound_ltb x z); [right; now left | now left].
    + intros y Hy.
      assert (Hhead : bound_leb (if bound_ltb x z then z else x)
                                (fold_left (fun best y0 => if bound_ltb best y0 then y0 else best)
                                           xs (if bound_ltb x z then z else x)) = true)
        by (apply Hle; now left).
      rewrite bound_ltb_leb in *.
      destruct Hy as [Hy | [Hy | Hy]]; [subst y | subst y | apply Hle; now right].
      * destruct (bound_leb z x) eqn:Hzx; cbn [negb] in *; [assumption |].
        eapply bound_leb_trans; [| exact Hhead]. now apply bound_leb_total.
      * destruct (bound_leb z x) eqn:Hzx; cbn [negb] in *; [| assumption].
        eapply bound_leb_trans; eassumption.
Qed.

(** X10: on a tuple that is not empty [between] does not fail, and answers
    [True] exactly when some element of the tuple is at most the position
    and some element is at least the position; the order of the elements
    does not matter. *)
Theorem between_spec (pos : Z) (coords : list bound) :
  coords <> [] ->
  exists answer,
    between pos coords = Ok answer /\
    (answer = true <->
     (exists a, In a coords /\ bound_le a (Int pos)) /\
     (exists b, In b coords /\ bound_le (Int pos) b)).
Proof.
  destruct coords as [| x xs]; [congruence |]. intros _. unfold between, bound_le.
  destruct (bound_min_spec x xs) as [Hmin_in Hmin].
  destruct (bound_max_spec x xs) as [Hmax_in Hmax].
  destruct (bound_leb (bound_min x xs) (Int pos)) eqn:Hlo.
  - eexists. split; [reflexivity |]. split.
    + intros Hhi. split; eauto.
    + intros [_ (b & Hb & Hle)]. eapply bound_leb_trans; [exact Hle |]. now apply Hmax.
  - exists false. split; [reflexivity |]. split; [discriminate |].
    intros [(a & Ha & Hle) _].
    rewrite (bound_leb_trans _ a _ (Hmin a Ha) Hle) in Hlo. discriminate.
Qed.

Lemma between_spec_witness :
  exists answer,
    between 5 [Int 100; Int 10] = Ok answer /\
    (answer = true <->
     (exists a, In a [Int 100; Int 10] /\ bound_le a (Int 5)) /\
     (exists b, In b [Int 100; Int 10] /\ bound_le (Int 5) b)).
Proof. apply (between_spec 5 [Int 100; Int 10]). discriminate. Defined.

(** X11: for an interval of two integers [between] tests
    [min(a, b) <= pos <= max(a, b)], in either order of the ends; for the
    whole-contig interval (a, inf) it tests [a <= pos]. *)
Theorem between_pair (pos a b : Z) :
  between pos [Int a; Int b] = Ok ((Z.min a b <=? pos) && (pos <=? Z.max a b)) /\
  between pos [Int a; Int b] = between pos [Int b; Int a] /\
  between pos [Int a; Inf] = Ok (a <=? pos).
Proof.
  unfold between, bound_min, bound_max. cbn [fold_left bound_ltb bound_leb].
  split; [| split].
  - destruct (Z.ltb_spec b a), (Z.ltb_spec a b); cbn [bound_leb];
      destruct (Z.leb_spec (Z.min a b) pos), (Z.leb_spec pos (Z.max a b));
      destruct (Z.leb_spec a pos), (Z.leb_spec b pos),
        (Z.leb_spec pos a), (Z.leb_spec pos b); cbn; try reflexivity; lia.
  - destruct (Z.ltb_spec b a), (Z.ltb_spec a b); cbn [bound_leb];
      destruct (Z.leb_spec a pos), (Z.leb_spec b pos),
        (Z.leb_spec pos a), (Z.leb_spec pos b); cbn; try reflexivity; lia.
  - destruct (a <=? pos); reflexivity.
Qed.

(** ** Descriptors *)

Lemma comma_free_cons (c : ascii) (s : string) :
  comma_free (String c s) <-> c <> ","%char /\ comma_free s.
Proof.
  unfold comma_free. cbn [list_ascii_of_string In]. split.
  - intros H. split; [intros -> | intros Hin]; apply H; auto.
  - intros [Hc Hs] [Heq | Hin]; [congruence | contradiction].
Qed.

Lemma split_on_comma_free (a : string) : comma_free a -> split_on "," a = [a].
Proof.
  induction a as [| c a IH]; [reflexivity |].
  intros Hfree. apply comma_free_cons in Hfree. destruct Hfree as [Hc Hfree].
  cbn [split_on]. replace (Ascii.eqb c ",") with false by (symmetry; now apply Ascii.eqb_neq).
  now rewrite (IH Hfree).
Qed.




Lemma foldM_app {A S : Type} (f : S -> A -> result S) (l1 l2 : list A) (s : S) :
  foldM f (l1 ++ l2) s = bind (foldM f l1 s) (foldM f l2).
Proof.
  revert s. induction l1 as [| x l1 IH]; intros s; [reflexivity |].
  cbn [app foldM]. run_bind. destruct (f s x) as [s' | e]; cbn [bind]; [apply IH | reflexivity].
Qed.


Section Descriptors.

Variable file_lines : string -> option (list string).


End Descriptors.


(** ** Intervals accumulate *)

Lemma add_target_extends (t : target_map) (s0 c0 : string) (tup : list bound) (s c : string) :
  exists added, intervals (add_target t s0 c0 tup) s c = intervals t s c ++ added.
Proof.
  rewrite intervals_add_target. destruct (decide (s0 = s /\ c0 = c)) as [[<- <-] | _].
  - eauto.
  - exists []. now rewrite app_nil_r.
Qed.

Lemma parse_item_extends (t t' : target_map) (item : value) (s c : string) :
  parse_item t item = Ok t' ->
  exists added, intervals t' s c = intervals t s c ++ added.
Proof.
  unfold parse_item. destruct item as [| | item | | | |]; try discriminate.
  destruct (split_on "," item) as [| ctg [| c0 coords]]; [discriminate | |].
  - intros [= <-]. cbn [fold_left].
    destruct (add_target_extends t "+" ctg [Int 0; Inf] s c) as [a1 H1].
    destruct (add_target_extends (add_target t "+" ctg [Int 0; Inf]) "-" ctg [Int 0; Inf] s c)
      as [a2 H2].
    exists (a1 ++ a2). now rewrite H2, H1, app_assoc.
  - destruct (mapM py_int (List.removelast (c0 :: coords))) as [tup | e]; [| discriminate].
    run_bind. intros [= <-]. apply add_target_extends.
Qed.

Lemma foldM_parse_extends (items : list value) (t t' : target_map) (s c : string) :
  foldM parse_item items t = Ok t' ->
  exists added, intervals t' s c = intervals t s c ++ added.
Proof.
  revert t. induction items as [| item items IH]; intros t Hfold.
  - cbn in Hfold. injection Hfold as <-. exists []. now rewrite app_nil_r.
  - cbn [foldM] in Hfold. destruct (parse_item t item) as [t1 | e] eqn:Hitem;
      run_bind in Hfold; [| discriminate].
    destruct (parse_item_extends t t1 item s c Hitem) as [a1 H1].
    destruct (IH t1 Hfold) as [a2 H2].
    exists (a1 ++ a2). now rewrite H2, H1, app_assoc.
Qed.

Section Accumulation.

Variable file_lines : string -> option (list string).

(** X13: more descriptors never overwrite or reorder what earlier ones
    recorded: for every strand and contig, the tuples of
    [get_targets(items)] are the first tuples of
    [get_targets(items + more)]. *)
Theorem get_targets_accumulates
        (items more : list value) (t1 t : target_map) (strand ctg : string) :
  get_targets file_lines (VList items) = Ok t1 ->
  get_targets file_lines (VList (items ++ more)) = Ok t ->
  exists added, intervals t strand ctg = intervals t1 strand ctg ++ added.
Proof.
  unfold get_targets, target_items. run_bind. intros H1 H.
  rewrite foldM_app, H1 in H. cbn [bind] in H.
  now apply (foldM_parse_extends more t1 t).
Qed.




End Accumulation.

Lemma get_targets_accumulates_witness :
  exists added,
    intervals {[ "+" := {[ "chr1" := [[Int 1; Int 5]; [Int 7; Int 9]] ]} ]} "+" "chr1"
    = intervals {[ "+" := {[ "chr1" := [[Int 1; Int 5]] ]} ]} "+" "chr1" ++ added.
Proof.
  apply (get_targets_accumulates no_files [VStr "chr1,1,5,+"] [VStr "chr1,7,9,+"]);
    vm_compute; reflexivity.
Defined.


(** ** The condition records *)

Lemma mapM_named_tuple (ds : list dict) (records : list namedtuple) :
  mapM named_tuple_generator ds = Ok records ->
  records = ds /\ List.Forall (fun d => forallb valid_field (dict_keys d) = true) ds.
Proof.
  revert records. induction ds as [| d ds IH]; intros records H; cbn [mapM] in H.
  - injection H as <-. split; [reflexivity | constructor].
  - destruct (named_tuple_generator d) as [r | e] eqn:Hd; run_bind in H; [| discriminate].
    destruct (mapM named_tuple_generator ds) as [rs | e]; run_bind in H; [| discriminate].
    injection H as <-. destruct (IH rs eq_refl) as [-> Hall].
    unfold named_tuple_generator in Hd.
    destruct (forallb valid_field (dict_keys d)) eqn:Hvalid; [| discriminate].
    injection Hd as <-. split; [reflexivity | now constructor].
Qed.


Section Records.

Variable F M : Z -> option (Z * Z).
Variable file_lines : string -> option (list string).
Variable random : nat -> Q.

Lemma get_run_info_Ok_records (toml_dict store' : dict) (num_channels : Z)
      (run_info : gmap Z nat) (split_conditions : list namedtuple) (reference : option value) :
  get_run_info F M file_lines random toml_dict num_channels
  = (Ok (run_info, split_conditions, reference), store') ->
  exists conds conds',
    dict_get "conditions" toml_dict = Some (VDict conds) /\
    convert_all file_lines (condition_keys conds) conds = (Ok tt, conds') /\
    mapM named_tuple_generator
         (condition_dicts conds'
            ((if match dict_get "maintain_order" conds with
                 | Some v => truthy v
                 | None => true
                 end then py_sorted else shuffled random) (dict_keys conds')))
    = Ok split_conditions.
Proof.
  unfold get_run_info. intros Hrun.
  destruct (dict_get "conditions" toml_dict) as [[| | | | conds | |] |]; try discriminate.
  destruct (generate_flowcell F M num_channels _ _ false) as [split_channels | err];
    [| discriminate].
  destruct (convert_all file_lines (condition_keys conds) conds) as [[[] | err] conds']
    eqn:Hconv; [| discriminate].
  match type of Hrun with
  | context [mapM named_tuple_generator ?ds] =>
      destruct (mapM named_tuple_generator ds) as [tuples | err] eqn:Htuples;
      [| discriminate]
  end.
  injection Hrun as <- <- <- <-. exists conds, conds'.
  split; [reflexivity |]. split; [exact Hconv | exact Htuples].
Qed.


(** X17: a configuration whose [conditions] section holds no structured
    condition cannot be built: on 3000 channels [get_run_info] raises the
    invalid-split error of [generate_flowcell], and the configuration is
    left as it was. *)
Theorem get_run_info_no_conditions (toml_dict conds : dict) :
  dict_get "conditions" toml_dict = Some (VDict conds) ->
  condition_keys conds = [] ->
  get_run_info F M file_lines random toml_dict 3000
  = (Raise (ValueError msg_split_positive), toml_dict).
Proof.
  intros Hconds Hnone. unfold get_run_info. rewrite Hconds, Hnone.
  destruct (grid_3000 F M) as (arr & Harr & _).
  unfold generate_flowcell. rewrite Harr. reflexivity.
Qed.

End Records.


Lemma get_run_info_no_conditions_witness :
  get_run_info example_flongle example_minion no_files constant_random
               [("conditions", VDict [("reference", VStr "ref.mmi")])] 3000
  = (Raise (ValueError msg_split_positive),
     [("conditions", VDict [("reference", VStr "ref.mmi")])]).
Proof.
  exact (get_run_info_no_conditions example_flongle example_minion no_files constant_random
           [("conditions", VDict [("reference", VStr "ref.mmi")])]
           [("reference", VStr "ref.mmi")] eq_refl eq_refl).
Defined.

(** ** The order of the records *)

Lemma ascii_compare_refl (a : ascii) : Ascii.compare a a = Eq.
Proof. unfold Ascii.compare. apply N.compare_refl. Qed.

Lemma ascii_compare_lt_trans (a b c : ascii) :
  Ascii.compare a b = Lt -> Ascii.compare b c = Lt -> Ascii.compare a c = Lt.
Proof.
  unfold Ascii.compare. rewrite !N.compare_lt_iff. apply N.lt_trans.
Qed.

Lemma string_compare_trans (s1 : string) :
  forall s2 s3,
    String.compare s1 s2 <> Gt -> String.compare s2 s3 <> Gt -> String.compare s1 s3 <> Gt.
Proof.
  induction s1 as [| a s1 IH]; intros [| b s2] [| c s3]; cbn; try congruence.
  destruct (Ascii.compare a b) eqn:Hab; try congruence;
    destruct (Ascii.compare b c) eqn:Hbc; try congruence.
  - apply Ascii.compare_eq_iff in Hab, Hbc. subst. rewrite ascii_compare_refl. apply IH.
  - apply Ascii.compare_eq_iff in Hab. subst. now rewrite Hbc.
  - apply Ascii.compare_eq_iff in Hbc. subst. now rewrite Hab.
  - now rewrite (ascii_compare_lt_trans a b c Hab Hbc).
Qed.

Lemma string_leb_trans (s1 s2 s3 : string) :
  String.leb s1 s2 = true -> String.leb s2 s3 = true -> String.leb s1 s3 = true.
Proof.
  unfold String.leb. intros H12 H23.
  pose proof (string_compare_trans s1 s2 s3) as Htrans.
  destruct (String.compare s1 s2), (String.compare s2 s3), (String.compare s1 s3);
    try reflexivity; try discriminate; exfalso; apply Htrans; congruence.
Qed.

Lemma insert_sorted_In {A : Type} (le : A -> A -> bool) (x y : A) (l : list A) :
  In y (insert_sorted le x l) -> y = x \/ In y l.
Proof.
  intros Hin. apply (Permutation_in _ (insert_sorted_perm le x l)) in Hin.
  destruct Hin; auto.
Qed.

Lemma py_sorted_StronglySorted (L : list string) :
  StronglySorted (fun a b => String.leb a b = true) (py_sorted L).
Proof.
  unfold py_sorted, sort_by. induction L as [| x L IH]; [constructor |].
  cbn [fold_right]. revert IH. generalize (fold_right (insert_sorted String.leb) [] L).
  intros l Hl. induction Hl as [| y l Hl IHl Hy]; cbn [insert_sorted].
  - constructor; constructor.
  - destruct (String.leb x y) eqn:Hxy.
    + constructor; [now constructor |]. constructor; [assumption |].
      rewrite List.Forall_forall in *. intros z Hz.
      eapply string_leb_trans; [exact Hxy | now apply Hy].
    + constructor; [assumption |].
      apply List.Forall_forall. intros z Hz.
      destruct (insert_sorted_In _ _ _ _ Hz) as [-> | Hz'].
      * destruct (String.leb_total x y) as [H | H]; congruence.
      * rewrite List.Forall_forall in Hy. now apply Hy.
Qed.

Lemma StronglySorted_filter {A : Type} (R : A -> A -> Prop) (f : A -> bool) (l : list A) :
  StronglySorted R l -> StronglySorted R (List.filter f l).
Proof.
  induction 1 as [| x l Hl IH Hx]; cbn [List.filter]; [constructor |].
  destruct (f x); [| assumption]. constructor; [assumption |].
  apply List.Forall_forall. intros y Hy. apply filter_In in Hy.
  rewrite List.Forall_forall in Hx. now apply Hx.
Qed.

Lemma Permutation_list_filter {A : Type} (f : A -> bool) (l l' : list A) :
  Permutation l l' -> Permutation (List.filter f l) (List.filter f l').
Proof.
  induction 1 as [| x l l' _ IH | x y l | l1 l2 l3 _ IH1 _ IH2]; cbn [List.filter].
  - constructor.
  - destruct (f x); [now constructor | assumption].
  - destruct (f x), (f y); try reflexivity. apply perm_swap.
  - etransitivity; eassumption.
Qed.

Lemma condition_dicts_Forall2 (conds : dict) (keys : list string) :
  Forall2 (fun k record => dict_get k conds = Some (VDict record))
          (List.filter (fun k => is_dict (dict_get k conds)) keys)
          (condition_dicts conds keys).
Proof.
  unfold condition_dicts. induction keys as [| k keys IH]; [constructor |].
  cbn [List.filter flat_map].
  destruct (dict_get k conds) as [[| | | | d | |] |] eqn:Hk; cbn [is_dict app]; try assumption.
  constructor; assumption.
Qed.

Section RecordOrder.

Variable F M : Z -> option (Z * Z).
Variable file_lines : string -> option (list string).
Variable random : nat -> Q.

(** X15: when [maintain_order] is absent or true, the condition records come
    in ascending order of their keys, compared as strings: the i-th record
    is the condition under the i-th smallest key (so "10" comes before
    "9"). *)
Theorem get_run_info_order
        (toml_dict store' : dict) (num_channels : Z) (run_info : gmap Z nat)
        (split_conditions : list namedtuple) (reference : option value) (conds : dict) :
  dict_get "conditions" toml_dict = Some (VDict conds) ->
  match dict_get "maintain_order" conds with
  | Some v => truthy v = true
  | None => True
  end ->
  get_run_info F M file_lines random toml_dict num_channels
  = (Ok (run_info, split_conditions, reference), store') ->
  exists keys conds',
    dict_get "conditions" store' = Some (VDict conds') /\
    Permutation keys (condition_keys conds) /\
    StronglySorted (fun a b => String.leb a b = true) keys /\
    Forall2 (fun k record => dict_get k conds' = Some (VDict record)) keys split_conditions.
Proof.
  intros Hconds Horder Hrun.
  destruct (get_run_info_Ok F M file_lines random _ _ _ _ _ _ Hrun)
    as (conds0 & _ & conds1 & Hconds0 & _ & Hconv1 & Hstore & _ & _ & _).
  rewrite Hconds in Hconds0. injection Hconds0 as <-.
  destruct (get_run_info_Ok_records F M file_lines random _ _ _ _ _ _ Hrun)
    as (conds0 & conds' & Hc0 & Hconv & Hrecs).
  rewrite Hconds in Hc0. injection Hc0 as <-.
  rewrite Hconv1 in Hconv. injection Hconv as <-.
  assert (Hsorted : (if match dict_get "maintain_order" conds with
                        | Some v => truthy v
                        | None => true
                        end then py_sorted else shuffled random) = py_sorted).
  { destruct (dict_get "maintain_order" conds); [now rewrite Horder | reflexivity]. }
  rewrite Hsorted in Hrecs. apply mapM_named_tuple in Hrecs. destruct Hrecs as [-> _].
  exists (List.filter (fun k => is_dict (dict_get k conds1)) (py_sorted (dict_keys conds1))),
    conds1.
  split; [subst store'; apply dict_get_set_eq |]. split; [| split].
  - destruct (convert_all_frame file_lines (condition_keys conds) conds) as [Hframe _].
    rewrite Hconv1 in Hframe. cbn [snd] in Hframe.
    rewrite <- (conds_frame_condition_keys conds conds1 Hframe).
    apply Permutation_list_filter, sort_by_perm.
  - apply StronglySorted_filter, py_sorted_StronglySorted.
  - apply condition_dicts_Forall2.
Qed.

End RecordOrder.

Lemma get_run_info_order_witness :
  exists keys conds' run_info split_conditions,
    example_call.1 = Ok (run_info, split_conditions, None) /\
    dict_get "conditions" example_call.2 = Some (VDict conds') /\
    Permutation keys (condition_keys example_conditions) /\
    StronglySorted (fun a b => String.leb a b = true) keys /\
    Forall2 (fun k record => dict_get k conds' = Some (VDict record)) keys split_conditions.
Proof.
  destruct (is_Ok_true example_call.1) as [[[ri sc] ref] Hcall]; [vm_compute; reflexivity |].
  assert (Href : match example_call.1 with
                 | Ok (_, _, None) => true
                 | _ => false
                 end = true) by (vm_compute; reflexivity).
  rewrite Hcall in Href. destruct ref as [ref |]; [discriminate |].
  pose proof example_call_eq as Hrun. rewrite Hcall in Hrun.
  destruct (get_run_info_order example_flongle example_minion no_files constant_random
              example_config example_call.2 3000 ri sc None example_conditions
              eq_refl I Hrun) as (keys & conds' & Hstore & Hperm & Hsorted & Hrecords).
  exists keys, conds', ri, sc. auto.
Defined.

(** ** Parsing the contig names again *)

Lemma split_on_tokens_comma_free (s : string) : List.Forall comma_free (split_on "," s).
Proof.
  induction s as [| c s IH]; cbn [split_on].
  - constructor; [| constructor]. unfold comma_free. cbn. tauto.
  - destruct (Ascii.eqb c ",") eqn:Hc.
    + constructor; [| assumption]. unfold comma_free. cbn. tauto.
    + apply Ascii.eqb_neq in Hc.
      destruct (split_on "," s) as [| w ws].
      * constructor; [| constructor]. apply comma_free_cons. split; [assumption |].
        unfold comma_free. cbn. tauto.
      * inversion IH; subst. constructor; [| assumption]. now apply comma_free_cons.
Qed.

Lemma elem_of_contig_names (t : target_map) (c : string) :
  c ∈ contig_names t <-> exists strand contigs, t !! strand = Some contigs /\ c ∈ dom contigs.
Proof.
  unfold contig_names. rewrite elem_of_list_to_set, list_elem_of_In, in_concat. split.
  - intros (l & Hl & Hc). apply in_map_iff in Hl. destruct Hl as ([strand contigs] & <- & Hsc).
    apply list_elem_of_In, elem_of_map_to_list in Hsc.
    apply list_elem_of_In, elem_of_elements in Hc. eauto.
  - intros (strand & contigs & Ht & Hc).
    exists (elements (dom contigs)). split.
    + apply in_map_iff. exists (strand, contigs). split; [reflexivity |].
      now apply list_elem_of_In, elem_of_map_to_list.
    + now apply list_elem_of_In, elem_of_elements.
Qed.

Lemma contig_names_add_target (t : target_map) (s c : string) (tup : list bound) (c' : string) :
  c' ∈ contig_names (add_target t s c tup) -> c' = c \/ c' ∈ contig_names t.
Proof.
  rewrite !elem_of_contig_names. intros (strand & contigs & Ht & Hc). unfold add_target in Ht.
  destruct (decide (s = strand)) as [<- | Hne].
  - rewrite lookup_insert_eq in Ht. injection Ht as <-.
    rewrite dom_insert_L in Hc. apply elem_of_union in Hc. destruct Hc as [Hc | Hc].
    + left. now apply elem_of_singleton in Hc.
    + right. destruct (t !! s) as [old |] eqn:Hold; cbn in Hc.
      * eauto.
      * rewrite dom_empty_L in Hc. now apply not_elem_of_empty in Hc.
  - rewrite lookup_insert_ne in Ht by assumption. eauto.
Qed.

Lemma parse_item_comma_free (t t' : target_map) (item : value) :
  parse_item t item = Ok t' ->
  (forall c, c ∈ contig_names t -> comma_free c) ->
  forall c, c ∈ contig_names t' -> comma_free c.
Proof.
  unfold parse_item. destruct item as [| | item | | | |]; try discriminate.
  pose proof (split_on_tokens_comma_free item) as Htokens.
  destruct (split_on "," item) as [| ctg [| c0 coords]]; [discriminate | |];
    inversion Htokens as [| ? ? Hctg _]; subst.
  - intros [= <-] Ht c Hc. cbn [fold_left] in Hc.
    apply contig_names_add_target in Hc. destruct Hc as [-> | Hc]; [assumption |].
    apply contig_names_add_target in Hc. destruct Hc as [-> | Hc]; [assumption | auto].
  - destruct (mapM py_int (List.removelast (c0 :: coords))) as [tup | e]; [| discriminate].
    run_bind. intros [= <-] Ht c Hc.
    apply contig_names_add_target in Hc. destruct Hc as [-> | Hc]; [assumption | auto].
Qed.

Lemma foldM_parse_comma_free (items : list value) (t t' : target_map) :
  foldM parse_item items t = Ok t' ->
  (forall c, c ∈ contig_names t -> comma_free c) ->
  forall c, c ∈ contig_names t' -> comma_free c.
Proof.
  revert t. induction items as [| item items IH]; intros t Hfold Ht.
  - cbn in Hfold. now injection Hfold as <-.
  - cbn [foldM] in Hfold. destruct (parse_item t item) as [t1 | e] eqn:Hitem;
      run_bind in Hfold; [| discriminate].
    apply (IH t1 Hfold). now apply (parse_item_comma_free t t1 item).
Qed.

Lemma parse_item_name (t : target_map) (name : string) :
  comma_free name ->
  parse_item t (VStr name)
  = Ok (add_target (add_target t "+" name [Int 0; Inf]) "-" name [Int 0; Inf]).
Proof.
  intros Hname. unfold parse_item. now rewrite (split_on_comma_free name Hname).
Qed.

(** Parsing contig names that hold no comma: each gets the whole-contig
    interval on both strands. *)
Lemma foldM_parse_names (names : list string) :
  forall t,
    NoDup names -> List.Forall comma_free names ->
    exists t',
      foldM parse_item (map VStr names) t = Ok t' /\
      forall strand ctg,
        intervals t' strand ctg
        = intervals t strand ctg ++
          (if decide ((strand = "+" \/ strand = "-") /\ ctg ∈ names)
           then [[Int 0; Inf]] else []).
Proof.
  induction names as [| name names IH]; intros t Hnodup Hfree.
  - exists t. split; [reflexivity |]. intros strand ctg.
    rewrite decide_False by (intros [_ Hin]; inversion Hin). now rewrite app_nil_r.
  - apply NoDup_cons in Hnodup. destruct Hnodup as [Hfresh Hnodup'].
    inversion Hfree as [| ? ? Hname Hfree']; subst.
    cbn [map foldM]. rewrite (parse_item_name t name Hname). run_bind.
    destruct (IH (add_target (add_target t "+" name [Int 0; Inf]) "-" name [Int 0; Inf])
                 Hnodup' Hfree') as (t' & Hfold & Hint).
    exists t'. split; [exact Hfold |]. intros strand ctg.
    rewrite Hint, !intervals_add_target. clear Hint Hfold.
    destruct (decide ("-" = strand /\ name = ctg)) as [[<- <-] | Hminus].
    + rewrite (decide_False (P := "+" = "-" /\ _)) by (intros [? _]; discriminate).
      rewrite (decide_False (P := _ /\ name ∈ names)) by tauto.
      rewrite decide_True by (split; [now right | apply elem_of_cons; now left]).
      now rewrite app_nil_r.
    + destruct (decide ("+" = strand /\ name = ctg)) as [[<- <-] | Hplus].
      * rewrite (decide_False (P := _ /\ name ∈ names)) by tauto.
        rewrite decide_True by (split; [now left | apply elem_of_cons; now left]).
        now rewrite app_nil_r.
      * f_equal.
        destruct (decide ((strand = "+" \/ strand = "-") /\ ctg ∈ names)) as [[Hs Hin] | Hno].
        -- rewrite decide_True by (split; [assumption | apply elem_of_cons; now right]).
           reflexivity.
        -- rewrite decide_False; [reflexivity |].
           intros [Hs Hin]. apply elem_of_cons in Hin. destruct Hin as [-> | Hin]; [| tauto].
           destruct Hs as [-> | ->]; tauto.
Qed.

Section Reparse.

Variable file_lines : string -> option (list string).

Lemma get_targets_comma_free (targets : value) (t : target_map) :
  get_targets file_lines targets = Ok t -> forall c, c ∈ contig_names t -> comma_free c.
Proof.
  unfold get_targets. destruct (target_items file_lines targets) as [items | e];
    run_bind; [| discriminate].
  intros Hfold. apply (foldM_parse_comma_free items ∅ t Hfold).
  intros c Hc. apply elem_of_contig_names in Hc.
  destruct Hc as (strand & contigs & Hempty & _). now rewrite lookup_empty in Hempty.
Qed.

(** X18: [get_run_info] leaves in each condition the set of contig names
    where the descriptors were.  Parsing that set again, as a second call
    on the same dictionary does, never fails and records for every name the
    whole-contig interval (0, inf) on both strands and nothing else: the
    coordinates and strands of the first parse are not recovered. *)
Theorem get_targets_reparse (cond cond' : dict) :
  converted file_lines cond cond' ->
  exists names again,
    dict_get "targets" cond' = Some (VSet names) /\
    get_targets file_lines (VSet names) = Ok again /\
    forall strand ctg,
      intervals again strand ctg
      = if decide ((strand = "+" \/ strand = "-") /\ ctg ∈ names)
        then [[Int 0; Inf]] else [].
Proof.
  intros (targets & coords & _ & Hparse & Htargets & _).
  exists (contig_names coords).
  destruct (foldM_parse_names (elements (contig_names coords)) ∅) as (again & Hfold & Hint).
  - apply NoDup_elements.
  - apply List.Forall_forall. intros c Hc.
    apply (get_targets_comma_free targets coords Hparse).
    now apply elem_of_elements, list_elem_of_In.
  - exists again. split; [assumption |]. split.
    + unfold get_targets, target_items. run_bind. exact Hfold.
    + intros strand ctg. rewrite Hint. unfold intervals at 1. rewrite lookup_empty. cbn.
      destruct (decide ((strand = "+" \/ strand = "-") /\ ctg ∈ contig_names coords))
        as [[Hs Hc] | Hno].
      * rewrite decide_True; [reflexivity |].
        split; [assumption |]. now apply elem_of_elements.
      * rewrite decide_False; [reflexivity |].
        intros [Hs Hc]. apply Hno. split; [assumption |].
        now apply elem_of_elements.
Qed.

End Reparse.

Lemma get_targets_reparse_witness :
  exists names again,
    get_targets no_files (VSet names) = Ok again /\
    intervals again "-" "chr2" = [[Int 0; Inf]].
Proof.
  destruct (get_targets_reparse no_files
              [("targets", VList [VStr "chr2,10,20,+"])]
              [("targets", VSet {[ "chr2" ]});
               ("coords", VTargets {[ "+" := {[ "chr2" := [[Int 10; Int 20]] ]} ]})])
    as (names & again & Hnames & Hagain & Hint).
  - exists (VList [VStr "chr2,10,20,+"]), {[ "+" := {[ "chr2" := [[Int 10; Int 20]] ]} ]}.
    split; [reflexivity |]. split; [vm_compute; reflexivity |].
    split; vm_compute; reflexivity.
  - exists names, again. split; [assumption |].
    rewrite Hint. injection Hnames as <-.
    rewrite decide_True; [reflexivity |]. split; [now right |]. set_solver.
Defined.

(** ** Targets read from a file *)








(** ** Joining words *)



(** ** A condition without targets *)


